(** * coexist: parameter tables, the LIGGGHTS simulation wrapper and the
      ACCES run reader

    A shallow embedding of [coexist/base.py] ([Parameters], [Simulation])
    and [coexist/utilities.py] ([AccessData], [find_access_path]), with the
    properties the design document states about them.

    Conventions.
    - Python [float] and NumPy [float64] are IEEE 754 binary64 numbers:
      [spec_float] with [prec = 53] and [emax = 1024]; [None] stored in a
      [float64] array is NaN.
    - Python [str] is [string], the bytes of its UTF-8 encoding; the
      regular expression class [\w] and the text [int] parses are read
      character by character, with the letters, digits and spaces of every
      script.
    - A call either returns or raises: [result A] is [Ok a] or [Raise e].
    - The LIGGGHTS engine, the formatting of a float by [str] and the
      file system are outside the repository: they are interfaces
      ([Liggghts], [FloatStr], [filesystem]). *)

From Stdlib Require Import ZArith List String Ascii Bool Lia.
From Stdlib Require Import Floats.SpecFloat.
From Stdlib Require Import DecimalString Decimal DecimalPos DecimalZ.
Import ListNotations.

Local Open Scope list_scope.
Local Open Scope string_scope.

(* ===================================================================== *)
(** * Python results and exceptions                                       *)
(* ===================================================================== *)

Inductive exception : Type :=
| ValueError
| TypeError
| AttributeError
| OSError
| UnboundLocalError
| ZeroDivisionError
| IndexError.

Inductive result (A : Type) : Type :=
| Ok (a : A)
| Raise (e : exception).

Arguments Ok {A} a.
Arguments Raise {A} e.

Definition bind {A B : Type} (r : result A) (k : A -> result B) : result B :=
  match r with
  | Ok a => k a
  | Raise e => Raise e
  end.

Notation "x <- r ;; k" := (bind r (fun x => k))
  (at level 61, r at next level, right associativity).

Definition raises {A : Type} (r : result A) : Prop := exists e, r = Raise e.

(** Dynamically typed values, as far as the wrapper handles them. *)
Inductive pyval : Type :=
| PyNone
| PyBool (b : bool)
| PyInt (z : Z)
| PyFloat (f : spec_float)
| PyStr (s : string).

(* ===================================================================== *)
(** * binary64                                                            *)
(* ===================================================================== *)

Module F64.

Definition float : Type := spec_float.

Definition prec : Z := 53.
Definition emax : Z := 1024.

Definition nan : float := S754_nan.
Definition zero : float := S754_zero false.
(** [1.0], the conversion of the integer [1]. *)
Definition one : float := S754_finite false 4503599627370496 (-52).
(** The literal [0.2]: the binary64 number [0x3FC999999999999A]. *)
Definition c0_2 : float := S754_finite false 7205759403792794 (-55).

Definition mul : float -> float -> float := SFmul prec emax.
Definition sub : float -> float -> float := SFsub prec emax.

Definition ltb (a b : float) : bool := SFltb a b.

(** [a >= b]; false as soon as one side is NaN. *)
Definition geb (a b : float) : bool :=
  match SFcompare a b with
  | Some Gt | Some Eq => true
  | _ => false
  end.

Definition is_nan (a : float) : bool :=
  match a with
  | S754_nan => true
  | _ => false
  end.

Definition is_finite (a : float) : bool :=
  match a with
  | S754_zero _ | S754_finite _ _ _ => true
  | _ => false
  end.

(** [a != 0], the truth value of a float. *)
Definition nonzero (a : float) : bool :=
  match a with
  | S754_zero _ => false
  | _ => true
  end.

End F64.

Abbreviation float := F64.float.

(** [str] of a float (its shortest round-trip decimal form) is the
    interpreter's, not the repository's. *)
Class FloatStr : Type := float_str : float -> string.

(** [bool(v)]. *)
Definition truthy (v : pyval) : bool :=
  match v with
  | PyNone => false
  | PyBool b => b
  | PyInt z => negb (Z.eqb z 0)
  | PyFloat f => F64.nonzero f
  | PyStr s => negb (String.eqb s "")
  end.

(** [str(z)] for an integer. *)
Definition str_int (z : Z) : string := NilZero.string_of_int (Z.to_int z).

(** [str(v)], as an f-string formats a value. *)
Definition py_str `{FloatStr} (v : pyval) : string :=
  match v with
  | PyNone => "None"
  | PyBool true => "True"
  | PyBool false => "False"
  | PyInt z => str_int z
  | PyFloat f => float_str f
  | PyStr s => s
  end.

(* ===================================================================== *)
(** * Strings and the regular expressions of the sources                  *)
(* ===================================================================== *)

Module Re.

Definition in_range (lo hi : nat) (c : ascii) : bool :=
  let n := nat_of_ascii c in Nat.leb lo n && Nat.leb n hi.

(** [[0-9]] *)
Definition is_digit (c : ascii) : bool := in_range 48 57 c.

(** ** Text beyond ASCII

    A [str] is held as the bytes of its UTF-8 encoding, which is what a
    string literal of this file denotes.  The literals, the class [[0-9]]
    and the separators of the patterns of the sources are ASCII, and an
    ASCII byte never occurs inside the encoding of another character, so
    they are matched byte by byte.  The class [\w] is matched character
    by character. *)

(** [k] continuation bytes at the head of [s], added to [acc]. *)
Fixpoint continuation (k : nat) (s : string) (acc : N) : option N :=
  match k with
  | O => Some acc
  | S k' =>
      match s with
      | EmptyString => None
      | String c s' =>
          let b := N_of_ascii c in
          if (128 <=? b)%N && (b <? 192)%N
          then continuation k' s' (acc * 64 + (b - 128))%N
          else None
      end
  end.

(** A code point that takes [n] bytes lies between [lo] and [hi]. *)
Definition encoded_in (n : nat) (lo hi : N) (cp : option N)
    : option (N * nat) :=
  match cp with
  | Some cp => if (lo <=? cp)%N && (cp <=? hi)%N then Some (cp, n) else None
  | None => None
  end.

(** The character at the head of [s]: its code point and the number of
    bytes that encode it. *)
Definition utf8_head (s : string) : option (N * nat) :=
  match s with
  | EmptyString => None
  | String c s' =>
      let b := N_of_ascii c in
      if (b <? 128)%N then Some (b, 1%nat)
      else if (b <? 192)%N then None
      else if (b <? 224)%N then
        encoded_in 2 128 2047 (continuation 1 s' (b - 192)%N)
      else if (b <? 240)%N then
        encoded_in 3 2048 65535 (continuation 2 s' (b - 224)%N)
      else if (b <? 248)%N then
        encoded_in 4 65536 1114111 (continuation 3 s' (b - 240)%N)
      else None
  end.

Definition in_ranges (table : list (N * N)) (cp : N) : bool :=
  existsb (fun r => (fst r <=? cp)%N && (cp <=? snd r)%N) table.

(** The characters beyond ASCII of which [str.isalnum] holds, as ranges
    of code points (Unicode 14.0, the database of Python 3.11). *)
Definition alnum_ranges : list (N * N) :=
  [(170, 170); (178, 179); (181, 181); (185, 186); (188, 190); (192, 214);
   (216, 246); (248, 705); (710, 721); (736, 740); (748, 748); (750, 750);
   (880, 884); (886, 887); (890, 893); (895, 895); (902, 902); (904, 906);
   (908, 908); (910, 929); (931, 1013); (1015, 1153); (1162, 1327);
   (1329, 1366); (1369, 1369); (1376, 1416); (1488, 1514); (1519, 1522);
   (1568, 1610); (1632, 1641); (1646, 1647); (1649, 1747); (1749, 1749);
   (1765, 1766); (1774, 1788); (1791, 1791); (1808, 1808); (1810, 1839);
   (1869, 1957); (1969, 1969); (1984, 2026); (2036, 2037); (2042, 2042);
   (2048, 2069); (2074, 2074); (2084, 2084); (2088, 2088); (2112, 2136);
   (2144, 2154); (2160, 2183); (2185, 2190); (2208, 2249); (2308, 2361);
   (2365, 2365); (2384, 2384); (2392, 2401); (2406, 2415); (2417, 2432);
   (2437, 2444); (2447, 2448); (2451, 2472); (2474, 2480); (2482, 2482);
   (2486, 2489); (2493, 2493); (2510, 2510); (2524, 2525); (2527, 2529);
   (2534, 2545); (2548, 2553); (2556, 2556); (2565, 2570); (2575, 2576);
   (2579, 2600); (2602, 2608); (2610, 2611); (2613, 2614); (2616, 2617);
   (2649, 2652); (2654, 2654); (2662, 2671); (2674, 2676); (2693, 2701);
   (2703, 2705); (2707, 2728); (2730, 2736); (2738, 2739); (2741, 2745);
   (2749, 2749); (2768, 2768); (2784, 2785); (2790, 2799); (2809, 2809);
   (2821, 2828); (2831, 2832); (2835, 2856); (2858, 2864); (2866, 2867);
   (2869, 2873); (2877, 2877); (2908, 2909); (2911, 2913); (2918, 2927);
   (2929, 2935); (2947, 2947); (2949, 2954); (2958, 2960); (2962, 2965);
   (2969, 2970); (2972, 2972); (2974, 2975); (2979, 2980); (2984, 2986);
   (2990, 3001); (3024, 3024); (3046, 3058); (3077, 3084); (3086, 3088);
   (3090, 3112); (3114, 3129); (3133, 3133); (3160, 3162); (3165, 3165);
   (3168, 3169); (3174, 3183); (3192, 3198); (3200, 3200); (3205, 3212);
   (3214, 3216); (3218, 3240); (3242, 3251); (3253, 3257); (3261, 3261);
   (3293, 3294); (3296, 3297); (3302, 3311); (3313, 3314); (3332, 3340);
   (3342, 3344); (3346, 3386); (3389, 3389); (3406, 3406); (3412, 3414);
   (3416, 3425); (3430, 3448); (3450, 3455); (3461, 3478); (3482, 3505);
   (3507, 3515); (3517, 3517); (3520, 3526); (3558, 3567); (3585, 3632);
   (3634, 3635); (3648, 3654); (3664, 3673); (3713, 3714); (3716, 3716);
   (3718, 3722); (3724, 3747); (3749, 3749); (3751, 3760); (3762, 3763);
   (3773, 3773); (3776, 3780); (3782, 3782); (3792, 3801); (3804, 3807);
   (3840, 3840); (3872, 3891); (3904, 3911); (3913, 3948); (3976, 3980);
   (4096, 4138); (4159, 4169); (4176, 4181); (4186, 4189); (4193, 4193);
   (4197, 4198); (4206, 4208); (4213, 4225); (4238, 4238); (4240, 4249);
   (4256, 4293); (4295, 4295); (4301, 4301); (4304, 4346); (4348, 4680);
   (4682, 4685); (4688, 4694); (4696, 4696); (4698, 4701); (4704, 4744);
   (4746, 4749); (4752, 4784); (4786, 4789); (4792, 4798); (4800, 4800);
   (4802, 4805); (4808, 4822); (4824, 4880); (4882, 4885); (4888, 4954);
   (4969, 4988); (4992, 5007); (5024, 5109); (5112, 5117); (5121, 5740);
   (5743, 5759); (5761, 5786); (5792, 5866); (5870, 5880); (5888, 5905);
   (5919, 5937); (5952, 5969); (5984, 5996); (5998, 6000); (6016, 6067);
   (6103, 6103); (6108, 6108); (6112, 6121); (6128, 6137); (6160, 6169);
   (6176, 6264); (6272, 6276); (6279, 6312); (6314, 6314); (6320, 6389);
   (6400, 6430); (6470, 6509); (6512, 6516); (6528, 6571); (6576, 6601);
   (6608, 6618); (6656, 6678); (6688, 6740); (6784, 6793); (6800, 6809);
   (6823, 6823); (6917, 6963); (6981, 6988); (6992, 7001); (7043, 7072);
   (7086, 7141); (7168, 7203); (7232, 7241); (7245, 7293); (7296, 7304);
   (7312, 7354); (7357, 7359); (7401, 7404); (7406, 7411); (7413, 7414);
   (7418, 7418); (7424, 7615); (7680, 7957); (7960, 7965); (7968, 8005);
   (8008, 8013); (8016, 8023); (8025, 8025); (8027, 8027); (8029, 8029);
   (8031, 8061); (8064, 8116); (8118, 8124); (8126, 8126); (8130, 8132);
   (8134, 8140); (8144, 8147); (8150, 8155); (8160, 8172); (8178, 8180);
   (8182, 8188); (8304, 8305); (8308, 8313); (8319, 8329); (8336, 8348);
   (8450, 8450); (8455, 8455); (8458, 8467); (8469, 8469); (8473, 8477);
   (8484, 8484); (8486, 8486); (8488, 8488); (8490, 8493); (8495, 8505);
   (8508, 8511); (8517, 8521); (8526, 8526); (8528, 8585); (9312, 9371);
   (9450, 9471); (10102, 10131); (11264, 11492); (11499, 11502);
   (11506, 11507); (11517, 11517); (11520, 11557); (11559, 11559);
   (11565, 11565); (11568, 11623); (11631, 11631); (11648, 11670);
   (11680, 11686); (11688, 11694); (11696, 11702); (11704, 11710);
   (11712, 11718); (11720, 11726); (11728, 11734); (11736, 11742);
   (11823, 11823); (12293, 12295); (12321, 12329); (12337, 12341);
   (12344, 12348); (12353, 12438); (12445, 12447); (12449, 12538);
   (12540, 12543); (12549, 12591); (12593, 12686); (12690, 12693);
   (12704, 12735); (12784, 12799); (12832, 12841); (12872, 12879);
   (12881, 12895); (12928, 12937); (12977, 12991); (13312, 19903);
   (19968, 42124); (42192, 42237); (42240, 42508); (42512, 42539);
   (42560, 42606); (42623, 42653); (42656, 42735); (42775, 42783);
   (42786, 42888); (42891, 42954); (42960, 42961); (42963, 42963);
   (42965, 42969); (42994, 43009); (43011, 43013); (43015, 43018);
   (43020, 43042); (43056, 43061); (43072, 43123); (43138, 43187);
   (43216, 43225); (43250, 43255); (43259, 43259); (43261, 43262);
   (43264, 43301); (43312, 43334); (43360, 43388); (43396, 43442);
   (43471, 43481); (43488, 43492); (43494, 43518); (43520, 43560);
   (43584, 43586); (43588, 43595); (43600, 43609); (43616, 43638);
   (43642, 43642); (43646, 43695); (43697, 43697); (43701, 43702);
   (43705, 43709); (43712, 43712); (43714, 43714); (43739, 43741);
   (43744, 43754); (43762, 43764); (43777, 43782); (43785, 43790);
   (43793, 43798); (43808, 43814); (43816, 43822); (43824, 43866);
   (43868, 43881); (43888, 44002); (44016, 44025); (44032, 55203);
   (55216, 55238); (55243, 55291); (63744, 64109); (64112, 64217);
   (64256, 64262); (64275, 64279); (64285, 64285); (64287, 64296);
   (64298, 64310); (64312, 64316); (64318, 64318); (64320, 64321);
   (64323, 64324); (64326, 64433); (64467, 64829); (64848, 64911);
   (64914, 64967); (65008, 65019); (65136, 65140); (65142, 65276);
   (65296, 65305); (65313, 65338); (65345, 65370); (65382, 65470);
   (65474, 65479); (65482, 65487); (65490, 65495); (65498, 65500);
   (65536, 65547); (65549, 65574); (65576, 65594); (65596, 65597);
   (65599, 65613); (65616, 65629); (65664, 65786); (65799, 65843);
   (65856, 65912); (65930, 65931); (66176, 66204); (66208, 66256);
   (66273, 66299); (66304, 66339); (66349, 66378); (66384, 66421);
   (66432, 66461); (66464, 66499); (66504, 66511); (66513, 66517);
   (66560, 66717); (66720, 66729); (66736, 66771); (66776, 66811);
   (66816, 66855); (66864, 66915); (66928, 66938); (66940, 66954);
   (66956, 66962); (66964, 66965); (66967, 66977); (66979, 66993);
   (66995, 67001); (67003, 67004); (67072, 67382); (67392, 67413);
   (67424, 67431); (67456, 67461); (67463, 67504); (67506, 67514);
   (67584, 67589); (67592, 67592); (67594, 67637); (67639, 67640);
   (67644, 67644); (67647, 67669); (67672, 67702); (67705, 67742);
   (67751, 67759); (67808, 67826); (67828, 67829); (67835, 67867);
   (67872, 67897); (67968, 68023); (68028, 68047); (68050, 68096);
   (68112, 68115); (68117, 68119); (68121, 68149); (68160, 68168);
   (68192, 68222); (68224, 68255); (68288, 68295); (68297, 68324);
   (68331, 68335); (68352, 68405); (68416, 68437); (68440, 68466);
   (68472, 68497); (68521, 68527); (68608, 68680); (68736, 68786);
   (68800, 68850); (68858, 68899); (68912, 68921); (69216, 69246);
   (69248, 69289); (69296, 69297); (69376, 69415); (69424, 69445);
   (69457, 69460); (69488, 69505); (69552, 69579); (69600, 69622);
   (69635, 69687); (69714, 69743); (69745, 69746); (69749, 69749);
   (69763, 69807); (69840, 69864); (69872, 69881); (69891, 69926);
   (69942, 69951); (69956, 69956); (69959, 69959); (69968, 70002);
   (70006, 70006); (70019, 70066); (70081, 70084); (70096, 70106);
   (70108, 70108); (70113, 70132); (70144, 70161); (70163, 70187);
   (70272, 70278); (70280, 70280); (70282, 70285); (70287, 70301);
   (70303, 70312); (70320, 70366); (70384, 70393); (70405, 70412);
   (70415, 70416); (70419, 70440); (70442, 70448); (70450, 70451);
   (70453, 70457); (70461, 70461); (70480, 70480); (70493, 70497);
   (70656, 70708); (70727, 70730); (70736, 70745); (70751, 70753);
   (70784, 70831); (70852, 70853); (70855, 70855); (70864, 70873);
   (71040, 71086); (71128, 71131); (71168, 71215); (71236, 71236);
   (71248, 71257); (71296, 71338); (71352, 71352); (71360, 71369);
   (71424, 71450); (71472, 71483); (71488, 71494); (71680, 71723);
   (71840, 71922); (71935, 71942); (71945, 71945); (71948, 71955);
   (71957, 71958); (71960, 71983); (71999, 71999); (72001, 72001);
   (72016, 72025); (72096, 72103); (72106, 72144); (72161, 72161);
   (72163, 72163); (72192, 72192); (72203, 72242); (72250, 72250);
   (72272, 72272); (72284, 72329); (72349, 72349); (72368, 72440);
   (72704, 72712); (72714, 72750); (72768, 72768); (72784, 72812);
   (72818, 72847); (72960, 72966); (72968, 72969); (72971, 73008);
   (73030, 73030); (73040, 73049); (73056, 73061); (73063, 73064);
   (73066, 73097); (73112, 73112); (73120, 73129); (73440, 73458);
   (73648, 73648); (73664, 73684); (73728, 74649); (74752, 74862);
   (74880, 75075); (77712, 77808); (77824, 78894); (82944, 83526);
   (92160, 92728); (92736, 92766); (92768, 92777); (92784, 92862);
   (92864, 92873); (92880, 92909); (92928, 92975); (92992, 92995);
   (93008, 93017); (93019, 93025); (93027, 93047); (93053, 93071);
   (93760, 93846); (93952, 94026); (94032, 94032); (94099, 94111);
   (94176, 94177); (94179, 94179); (94208, 100343); (100352, 101589);
   (101632, 101640); (110576, 110579); (110581, 110587); (110589, 110590);
   (110592, 110882); (110928, 110930); (110948, 110951); (110960, 111355);
   (113664, 113770); (113776, 113788); (113792, 113800); (113808, 113817);
   (119520, 119539); (119648, 119672); (119808, 119892); (119894, 119964);
   (119966, 119967); (119970, 119970); (119973, 119974); (119977, 119980);
   (119982, 119993); (119995, 119995); (119997, 120003); (120005, 120069);
   (120071, 120074); (120077, 120084); (120086, 120092); (120094, 120121);
   (120123, 120126); (120128, 120132); (120134, 120134); (120138, 120144);
   (120146, 120485); (120488, 120512); (120514, 120538); (120540, 120570);
   (120572, 120596); (120598, 120628); (120630, 120654); (120656, 120686);
   (120688, 120712); (120714, 120744); (120746, 120770); (120772, 120779);
   (120782, 120831); (122624, 122654); (123136, 123180); (123191, 123197);
   (123200, 123209); (123214, 123214); (123536, 123565); (123584, 123627);
   (123632, 123641); (124896, 124902); (124904, 124907); (124909, 124910);
   (124912, 124926); (124928, 125124); (125127, 125135); (125184, 125251);
   (125259, 125259); (125264, 125273); (126065, 126123); (126125, 126127);
   (126129, 126132); (126209, 126253); (126255, 126269); (126464, 126467);
   (126469, 126495); (126497, 126498); (126500, 126500); (126503, 126503);
   (126505, 126514); (126516, 126519); (126521, 126521); (126523, 126523);
   (126530, 126530); (126535, 126535); (126537, 126537); (126539, 126539);
   (126541, 126543); (126545, 126546); (126548, 126548); (126551, 126551);
   (126553, 126553); (126555, 126555); (126557, 126557); (126559, 126559);
   (126561, 126562); (126564, 126564); (126567, 126570); (126572, 126578);
   (126580, 126583); (126585, 126588); (126590, 126590); (126592, 126601);
   (126603, 126619); (126625, 126627); (126629, 126633); (126635, 126651);
   (127232, 127244); (130032, 130041); (131072, 173791); (173824, 177976);
   (177984, 178205); (178208, 183969); (183984, 191456); (194560, 195101);
   (196608, 201546)]%N.

(** [\w] in a pattern on [str]: a letter or a digit of any script, or the
    underscore. *)
Definition is_word (cp : N) : bool :=
  if (cp <? 128)%N
  then
    let c := ascii_of_N cp in
    in_range 97 122 c || in_range 65 90 c || is_digit c || Ascii.eqb c "_"
  else in_ranges alnum_ranges cp.

(** The number of bytes of the word character at the head of [s]; [0]
    when [s] does not start with one. *)
Definition word_head (s : string) : nat :=
  match utf8_head s with
  | Some (cp, n) => if is_word cp then n else O
  | None => O
  end.

Fixpoint all_chars (p : ascii -> bool) (s : string) : bool :=
  match s with
  | EmptyString => true
  | String c s' => p c && all_chars p s'
  end.

(** [s.startswith(lit)], returning what follows [lit]. *)
Fixpoint strip_prefix (lit s : string) : option string :=
  match lit, s with
  | EmptyString, _ => Some s
  | String a lit', String b s' =>
      if Ascii.eqb a b then strip_prefix lit' s' else None
  | String _ _, EmptyString => None
  end.

Definition startswith (s lit : string) : bool :=
  match strip_prefix lit s with
  | Some _ => true
  | None => false
  end.

(** The longest run of characters of class [p] at the head of [s], and
    the rest. *)
Fixpoint span (p : ascii -> bool) (s : string) : string * string :=
  match s with
  | EmptyString => (EmptyString, EmptyString)
  | String c s' =>
      if p c then let (run, rest) := span p s' in (String c run, rest)
      else (EmptyString, s)
  end.

(** A match of [pre cls+ post] at the head of [s], for a class of ASCII
    characters: the run matched by [cls+] and what follows the match.  In
    the pattern of the sources the first character of [post] is outside
    [cls], so the greedy run is the only candidate. *)
Definition match_run (pre : string) (cls : ascii -> bool) (post : string)
    (s : string) : option (string * string) :=
  match strip_prefix pre s with
  | None => None
  | Some r =>
      let (run, r') := span cls r in
      match run with
      | EmptyString => None
      | String _ _ =>
          match strip_prefix post r' with
          | Some rest => Some (run, rest)
          | None => None
          end
      end
  end.

(** [re.search]: is there a match at some position of [s]? *)
Fixpoint search {X : Type} (m : string -> option X) (s : string) : bool :=
  match m s with
  | Some _ => true
  | None =>
      match s with
      | EmptyString => false
      | String _ s' => search m s'
      end
  end.

(** The longest run of word characters at the head of [s], and the rest;
    [pending] counts the bytes of the current character still to take. *)
Fixpoint span_word (pending : nat) (s : string) : string * string :=
  match s with
  | EmptyString => (EmptyString, EmptyString)
  | String c s' =>
      match pending with
      | S k => let (run, rest) := span_word k s' in (String c run, rest)
      | O =>
          match word_head s with
          | O => (EmptyString, s)
          | S k => let (run, rest) := span_word k s' in (String c run, rest)
          end
      end
  end.

(** [\$\{\w+\}]: the name matched by [\w+] and what follows the match.
    The brace that must follow is not a word character, so the greedy run
    is the only candidate. *)
Definition match_placeholder (s : string) : option (string * string) :=
  match strip_prefix "${" s with
  | None => None
  | Some r =>
      let (name, r') := span_word 0 r in
      match name with
      | EmptyString => None
      | String _ _ =>
          match strip_prefix "}" r' with
          | Some rest => Some (name, rest)
          | None => None
          end
      end
  end.

(** [opt_history_[0-9]+\.csv] *)
Definition match_history : string -> option (string * string) :=
  match_run "opt_history_" is_digit ".csv".

(** The first alternative of [seps] matching at the head of [s]. *)
Fixpoint match_any (seps : list string) (s : string) : option string :=
  match seps with
  | [] => None
  | sep :: seps' =>
      match strip_prefix sep s with
      | Some _ => Some sep
      | None => match_any seps' s
      end
  end.

(** [re.split] for an alternation of non-empty literals.  [cur] is the
    field being read; [skip] counts the characters of the current match
    still to pass. *)
Fixpoint split_go (seps : list string) (skip : nat) (cur : string)
    (s : string) : list string :=
  match s with
  | EmptyString => [cur]
  | String c s' =>
      match skip with
      | S k => split_go seps k cur s'
      | O =>
          match match_any seps s with
          | Some sep =>
              cur :: split_go seps (String.length sep - 1) EmptyString s'
          | None => split_go seps 0 (cur ++ String c EmptyString) s'
          end
      end
  end.

Definition split (seps : list string) (s : string) : list string :=
  split_go seps 0 EmptyString s.

(** [re.sub(r"\$\{\w+\}", repl, s)], [repl] receiving the variable name
    (what [variable_extractor.split(match.group(0))[1]] extracts from the
    match); [skip] as in [split_go]. *)
Fixpoint sub_go (repl : string -> string) (skip : nat) (s : string)
    : string :=
  match s with
  | EmptyString => EmptyString
  | String c s' =>
      match skip with
      | S k => sub_go repl k s'
      | O =>
          match match_placeholder s with
          | Some (name, _) =>
              repl name ++ sub_go repl (String.length name + 2) s'
          | None => String c (sub_go repl 0 s')
          end
      end
  end.

Definition sub (repl : string -> string) (s : string) : string :=
  sub_go repl 0 s.

End Re.

(* ===================================================================== *)
(** * coexist/base.py                                                     *)
(* ===================================================================== *)

Module base.

(** ** class Parameters(pd.DataFrame)

    The frame is held by columns, as the constructor builds it:
    [index = variables] and the five columns of the [parameters] dict. *)
Record Parameters : Type := {
  index : list string;
  col_command : list string;
  col_value : list float;
  col_min : list float;
  col_max : list float;
  col_sigma : list float;
}.

(** [np.array(xs, dtype = float)]: [None] becomes NaN. *)
Definition as_float_array (xs : list (option float)) : list float :=
  map (fun x => match x with Some v => v | None => F64.nan end) xs.

Fixpoint zip_with {A B C : Type} (f : A -> B -> C) (xs : list A)
    (ys : list B) : list C :=
  match xs, ys with
  | x :: xs', y :: ys' => f x y :: zip_with f xs' ys'
  | _, _ => []
  end.

(** [len(variables) == len(commands) == ... == len(maximums)] *)
Definition same_lengths (variables commands : list string)
    (initial_values minimums maximums : list (option float)) : bool :=
  Nat.eqb (List.length variables) (List.length commands)
  && Nat.eqb (List.length commands) (List.length initial_values)
  && Nat.eqb (List.length initial_values) (List.length minimums)
  && Nat.eqb (List.length minimums) (List.length maximums).

(** [Parameters.__init__] *)
Definition Parameters_init (variables commands : list string)
    (initial_values minimums maximums : list (option float))
    (sigma0 : option (list float)) : result Parameters :=
  if negb (same_lengths variables commands initial_values minimums maximums)
  then Raise ValueError
  else
    let initial_values := as_float_array initial_values in
    let minimums := as_float_array minimums in
    let maximums := as_float_array maximums in
    if existsb (fun b : bool => b) (zip_with F64.geb minimums maximums)
    then Raise ValueError
    else
      sigma0 <-
        match sigma0 with
        | None =>
            Ok (map (F64.mul F64.c0_2) (zip_with F64.sub maximums minimums))
        | Some sigma0 =>
            if negb (Nat.eqb (List.length sigma0) (List.length variables))
            then Raise ValueError
            else Ok sigma0
        end ;;
      if existsb (fun cmd => negb (Re.search Re.match_placeholder cmd))
           commands
      then Raise ValueError
      else
        Ok {| index := variables;
              col_command := commands;
              col_value := initial_values;
              col_min := minimums;
              col_max := maximums;
              col_sigma := sigma0 |}.

(** [parameters.loc[idx, "value"]] for a label of the index: the cell of
    its row.  (With a repeated label pandas returns a Series; the only use,
    in [Simulation.__init__], passes it to [__setitem__], which raises on
    such a label before looking at the value.) *)
Definition loc_value (p : Parameters) (idx : string) : float :=
  match
    filter (fun row => String.eqb (fst row) idx)
      (combine (index p) (col_value p))
  with
  | row :: _ => snd row
  | [] => F64.nan
  end.

(** [key in parameters.index] *)
Definition in_index (p : Parameters) (key : string) : bool :=
  existsb (String.eqb key) (index p).

(** [parameters.loc[key, "command"]]: the cell when the label is unique;
    with a repeated label pandas returns a Series, which [re.sub]
    rejects. *)
Definition loc_command (p : Parameters) (key : string) : result string :=
  match
    map snd
      (filter (fun row => String.eqb (fst row) key)
         (combine (index p) (col_command p)))
  with
  | [cmd] => Ok cmd
  | _ => Raise TypeError
  end.

(** [parameters.at[key, "value"] = value]: the value cell of the rows
    labelled [key]. *)
Definition at_set_value (p : Parameters) (key : string) (value : float)
    : Parameters :=
  {| index := index p;
     col_command := col_command p;
     col_value :=
       zip_with (fun name v => if String.eqb name key then value else v)
         (index p) (col_value p);
     col_min := col_min p;
     col_max := col_max p;
     col_sigma := col_sigma p |}.

(** ** The LIGGGHTS binding (an external collaborator) *)
Class Liggghts (E : Type) : Type := {
  (** [liggghts(cmdargs = args)]; [liggghts()] is [liggghts_new []] *)
  liggghts_new : list string -> E;
  (** [lmp.file(path)] *)
  file : E -> string -> E;
  (** [lmp.command(cmd)] *)
  command : E -> string -> E;
  (** [lmp.extract_global(name, 1)]: a double *)
  extract_global : E -> string -> float;
  (** [lmp.extract_variable(name, "", 0)]: a float, or [None] *)
  extract_variable : E -> string -> pyval;
}.

(** ** class Simulation *)
Section Simulation.
Context {E : Type} `{Liggghts E} `{FloatStr}.

(** The attributes of an instance ([_log] is written once and never
    read). *)
Record Simulation : Type := {
  simulation : E;
  filename : string;
  parameters : Parameters;
  _step_size : float;
  _verbose : bool;
}.

(** A method: the instance after the call, and what the call returned
    or raised. *)
Definition method (A : Type) : Type := Simulation * result A.

Definition with_engine (self : Simulation) (e : E) : Simulation :=
  {| simulation := e;
     filename := filename self;
     parameters := parameters self;
     _step_size := _step_size self;
     _verbose := _verbose self |}.

(** [step_size] (getter) *)
Definition step_size (self : Simulation) : float := _step_size self.

(** [step_size] (setter) *)
Definition set_step_size (self : Simulation) (new_step_size : float)
    : method unit :=
  if F64.ltb F64.zero new_step_size && F64.ltb new_step_size F64.one
  then
    ({| simulation :=
          command (simulation self)
            ("timestep " ++ float_str new_step_size);
        filename := filename self;
        parameters := parameters self;
        _step_size := new_step_size;
        _verbose := _verbose self |},
     Ok tt)
  else (self, Raise ValueError).

(** [verbose] (getter): the body evaluates [self._verbose] and falls
    off the end. *)
Definition verbose (self : Simulation) : pyval :=
  let _ := _verbose self in PyNone.

(** [verbose] (setter) *)
Definition set_verbose (self : Simulation) (verbose : pyval)
    : Simulation :=
  {| simulation := simulation self;
     filename := filename self;
     parameters := parameters self;
     _step_size := _step_size self;
     _verbose := truthy verbose |}.

(** [variable] *)
Definition variable (self : Simulation) (var_name : string) : pyval :=
  extract_variable (simulation self) var_name.

(** [step] *)
Definition step (self : Simulation) (num_steps : pyval) : Simulation :=
  if truthy (verbose self)
  then with_engine self
         (command (simulation self) ("run " ++ py_str num_steps))
  else with_engine self
         (command (simulation self)
            ("run " ++ py_str num_steps ++ " post no")).

(** [__setitem__] *)
Definition setitem (self : Simulation) (key : string) (value : float)
    : method unit :=
  if negb (in_index (parameters self) key)
  then (self, Raise AttributeError)
  else
    let replace_var (var : string) : string :=
      if String.eqb var key then float_str value
      else py_str (variable self var) in
    match loc_command (parameters self) key with
    | Raise e => (self, Raise e)
    | Ok template =>
        let cmd := Re.sub replace_var template in
        let e1 := command (simulation self) cmd in
        let e2 :=
          command e1
            ("variable " ++ key ++ " equal " ++ float_str value) in
        ({| simulation := e2;
            filename := filename self;
            parameters := at_set_value (parameters self) key value;
            _step_size := _step_size self;
            _verbose := _verbose self |},
         Ok tt)
    end.

(** The loop [for idx in self.parameters.index: self[idx] = ...] *)
Fixpoint set_each (self : Simulation) (labels : list string) : method unit :=
  match labels with
  | [] => (self, Ok tt)
  | idx :: labels' =>
      match setitem self idx (loc_value (parameters self) idx) with
      | (self', Ok _) => set_each self' labels'
      | (self', Raise e) => (self', Raise e)
      end
  end.

(** [__init__].  [readable] tells which files [open] opens; [parameters]
    is a [Parameters] by its type, so the [isinstance] test passes. *)
Definition Simulation_init (readable : string -> bool)
    (simulation : string) (parameters : Parameters) (verbose : pyval)
    : result Simulation :=
  let _verbose := truthy verbose in
  let engine :=
    if _verbose then liggghts_new []
    else liggghts_new ["-screen"; "/dev/null"] in
  if negb (readable simulation) then Raise OSError
  else
    let engine := file engine simulation in
    let self :=
      {| simulation := engine;
         filename := simulation;
         parameters := parameters;
         _step_size := extract_global engine "dt";
         _verbose := _verbose |} in
    match set_each self (index parameters) with
    | (self', Ok _) => Ok self'
    | (_, Raise e) => Raise e
    end.

End Simulation.

Arguments Simulation E : clear implicits.

End base.

(* ===================================================================== *)
(** * coexist/utilities.py                                                *)
(* ===================================================================== *)

Module utilities.

Import base.

(** ** Built-ins the reader calls *)

(** The characters beyond ASCII of which [str.isspace] holds. *)
Definition space_ranges : list (N * N) :=
  [(133, 133); (160, 160); (5760, 5760); (8192, 8202); (8232, 8233);
   (8239, 8239); (8287, 8287); (12288, 12288)]%N.

(** The decimal digits beyond ASCII: each range is one or more runs of
    the ten digits of a script, in order. *)
Definition decimal_ranges : list (N * N) :=
  [(1632, 1641); (1776, 1785); (1984, 1993); (2406, 2415); (2534, 2543);
   (2662, 2671); (2790, 2799); (2918, 2927); (3046, 3055); (3174, 3183);
   (3302, 3311); (3430, 3439); (3558, 3567); (3664, 3673); (3792, 3801);
   (3872, 3881); (4160, 4169); (4240, 4249); (6112, 6121); (6160, 6169);
   (6470, 6479); (6608, 6617); (6784, 6793); (6800, 6809); (6992, 7001);
   (7088, 7097); (7232, 7241); (7248, 7257); (42528, 42537); (43216, 43225);
   (43264, 43273); (43472, 43481); (43504, 43513); (43600, 43609);
   (44016, 44025); (65296, 65305); (66720, 66729); (68912, 68921);
   (69734, 69743); (69872, 69881); (69942, 69951); (70096, 70105);
   (70384, 70393); (70736, 70745); (70864, 70873); (71248, 71257);
   (71360, 71369); (71472, 71481); (71904, 71913); (72016, 72025);
   (72784, 72793); (73040, 73049); (73120, 73129); (92768, 92777);
   (92864, 92873); (93008, 93017); (120782, 120831); (123200, 123209);
   (123632, 123641); (125264, 125273); (130032, 130041)]%N.

Definition decimal_value (cp : N) : option N :=
  match
    find (fun r => (fst r <=? cp)%N && (cp <=? snd r)%N) decimal_ranges
  with
  | Some r => Some ((cp - fst r) mod 10)%N
  | None => None
  end.

(** What [int] makes of its argument before it parses it: a space of any
    script becomes the ASCII space, a decimal digit of any script the
    ASCII digit of its value, any other character beyond ASCII a
    character no number holds; [pending] counts the bytes of the current
    character still to pass. *)
Fixpoint to_ascii_digits (pending : nat) (s : string) : string :=
  match s with
  | EmptyString => EmptyString
  | String c s' =>
      match pending with
      | S k => to_ascii_digits k s'
      | O =>
          match Re.utf8_head s with
          | Some (cp, n) =>
              String
                (if (cp <? 127)%N then c
                 else if Re.in_ranges space_ranges cp then " "%char
                 else
                   match decimal_value cp with
                   | Some d => ascii_of_N (48 + d)
                   | None => "?"%char
                   end)
                (to_ascii_digits (n - 1) s')
          | None => String "?" (to_ascii_digits 0 s')
          end
      end
  end.

(** The white space [int] passes over at both ends of the ASCII text: TAB,
    LF, VT, FF, CR and the space. *)
Definition is_space (c : ascii) : bool :=
  Re.in_range 9 13 c || Ascii.eqb c " ".

Fixpoint lstrip (s : string) : string :=
  match s with
  | EmptyString => EmptyString
  | String c s' => if is_space c then lstrip s' else s
  end.

Fixpoint rstrip (s : string) : string :=
  match s with
  | EmptyString => EmptyString
  | String c s' =>
      match rstrip s' with
      | EmptyString => if is_space c then EmptyString
                       else String c EmptyString
      | r => String c r
      end
  end.

(** The digits of an integer literal, underscores removed: a digit, then
    digits each preceded by at most one underscore. *)
Fixpoint literal_digits (s : string) (after_digit : bool) : option string :=
  match s with
  | EmptyString => if after_digit then Some EmptyString else None
  | String c s' =>
      if Re.is_digit c then
        match literal_digits s' true with
        | Some ds => Some (String c ds)
        | None => None
        end
      else if Ascii.eqb c "_" && after_digit then literal_digits s' false
      else None
  end.

Definition unsigned_literal (s : string) : option Z :=
  match literal_digits s false with
  | None => None
  | Some ds => option_map Z.of_uint (NilEmpty.uint_of_string ds)
  end.

(** [int(s)] for a string, base ten. *)
Definition py_int (s : string) : result Z :=
  let body := rstrip (lstrip (to_ascii_digits 0 s)) in
  let signed :=
    match body with
    | EmptyString => None
    | String c r =>
        if Ascii.eqb c "-" then option_map Z.opp (unsigned_literal r)
        else if Ascii.eqb c "+" then unsigned_literal r
        else unsigned_literal body
    end in
  match signed with
  | Some z => Ok z
  | None => Raise ValueError
  end.

(** [s.split(sep)[0]]: what precedes the first [sep]. *)
Fixpoint before_first (sep s : string) : string :=
  match Re.strip_prefix sep s with
  | Some _ => EmptyString
  | None =>
      match s with
      | EmptyString => EmptyString
      | String c s' => String c (before_first sep s')
      end
  end.

Fixpoint last_char (s : string) : option ascii :=
  match s with
  | EmptyString => None
  | String c EmptyString => Some c
  | String _ s' => last_char s'
  end.

(** [os.path.join(a, b)] (POSIX) *)
Definition join (a b : string) : string :=
  if Re.startswith b "/" then b
  else
    match last_char a with
    | None => b
    | Some c => if Ascii.eqb c "/" then a ++ b else a ++ "/" ++ b
    end.

(** [a // b] on integers *)
Definition floordiv (a b : Z) : result Z :=
  if Z.eqb b 0 then Raise ZeroDivisionError else Ok (Z.div a b).

(** ** What a run directory holds *)

(** The unpickled [access_info] object: the attributes the reader uses,
    and whatever else the writer stored on it. *)
Record AccessInfo : Type := {
  info_parameters : Parameters;
  info_target_sigma : float;
  info_random_seed : Z;
  info_other : list (string * pyval);
}.

(** A NumPy array of floats, of one or two dimensions. *)
Inductive ndarray : Type :=
| Arr1 (xs : list float)
| Arr2 (ncols : nat) (rows : list (list float)).

(** [len(a)] *)
Definition len (a : ndarray) : Z :=
  match a with
  | Arr1 xs => Z.of_nat (List.length xs)
  | Arr2 _ rows => Z.of_nat (List.length rows)
  end.

(** The file system as the reader observes it (read-only):
    [os.listdir], [pickle.load] of an opened file, [np.loadtxt]. *)
Record filesystem : Type := {
  listdir : string -> result (list string);
  load_pickle : string -> result AccessInfo;
  loadtxt : string -> result ndarray;
}.

(** A [pd.DataFrame] of floats with named columns. *)
Record DataFrame : Type := {
  columns : list string;
  rows : list (list float);
}.

(** [pd.DataFrame(data = a, columns = cols, dtype = float)]: a
    one-dimensional array is one column; the widths must agree. *)
Definition DataFrame_new (a : ndarray) (cols : list string)
    : result DataFrame :=
  match a with
  | Arr1 xs =>
      if Nat.eqb (List.length cols) 1
      then Ok {| columns := cols; rows := map (fun x => [x]) xs |}
      else Raise ValueError
  | Arr2 ncols rs =>
      if Nat.eqb (List.length cols) ncols
      then Ok {| columns := cols; rows := rs |}
      else Raise ValueError
  end.

(** ** class AccessData *)
Record AccessData : Type := {
  parameters : Parameters;
  num_solutions : Z;
  target_sigma : float;
  random_seed : Z;
  results : DataFrame;
  results_scaled : DataFrame;
  num_epochs : Z;
}.

(** The attributes of the [attr.s] class, in declaration order: the
    positional parameters of the generated [__init__], none of which has
    a default. *)
Definition AccessData_fields : list string :=
  ["parameters"; "num_solutions"; "target_sigma"; "random_seed";
   "results"; "results_scaled"; "num_epochs"].

(** Calling a function whose parameters are all required with
    positional arguments: the arguments bound to the parameters. *)
Definition bind_positional {A : Type} (params : list string)
    (args : list A) : result (list (string * A)) :=
  if Nat.eqb (List.length args) (List.length params)
  then Ok (combine params args)
  else Raise TypeError.

(** [AccessData(args...)] *)
Definition AccessData_call {A : Type} (args : list A)
    : result (list (string * A)) :=
  bind_positional AccessData_fields args.

(** ** find_access_path *)
Definition find_access_path (fs : filesystem) (path : string)
    : result string :=
  if Re.startswith path "access_info_" then Ok path
  else
    entries <- listdir fs path ;;
    match find (fun f => Re.startswith f "access_info_") entries with
    | Some f => Ok (join path f)
    | None => Ok path
    end.

(** ** AccessData.read *)

(** The alternatives of [opt_history_|\.csv]. *)
Definition separators : list string := ["opt_history_"; ".csv"].

(** [re.split(r"opt_history_|\.csv", history_path)[1]] *)
Definition population_field (history_path : string) : result string :=
  match nth_error (Re.split separators history_path) 1 with
  | Some field => Ok field
  | None => Raise IndexError
  end.

(** The loop over [os.listdir(access_path)]: the variables it binds,
    [None] while no entry matched. *)
Fixpoint scan_entries (access_path : string) (entries : list string)
    (bound : option (string * string * Z))
    : result (option (string * string * Z)) :=
  match entries with
  | [] => Ok bound
  | f :: entries' =>
      if Re.search Re.match_history f then
        let history_path := join access_path f in
        let history_scaled_path :=
          before_first ".csv" history_path ++ "_scaled.csv" in
        field <- population_field history_path ;;
        num_solutions <- py_int field ;;
        scan_entries access_path entries'
          (Some (history_path, history_scaled_path, num_solutions))
      else scan_entries access_path entries' bound
  end.

Definition results_columns (p : Parameters) : list string :=
  let names := index p in
  let stds := map (fun rc => rc ++ "_std") names in
  ((names ++ stds) ++ ["overall_std"; "error"])%list.

Definition read (fs : filesystem) (access_path : string)
    : result AccessData :=
  access_path <- find_access_path fs access_path ;;
  entries <- listdir fs access_path ;;
  bound <- scan_entries access_path entries None ;;
  access_info <-
    load_pickle fs (join access_path "access_info.pickle") ;;
  match bound with
  | None => Raise UnboundLocalError
  | Some (history_path, history_scaled_path, num_solutions) =>
      history <- loadtxt fs history_path ;;
      history_scaled <- loadtxt fs history_scaled_path ;;
      let results_columns := results_columns (info_parameters access_info) in
      results <- DataFrame_new history results_columns ;;
      results_scaled <- DataFrame_new history_scaled results_columns ;;
      num_epochs <- floordiv (len history) num_solutions ;;
      Ok {| parameters := info_parameters access_info;
            num_solutions := num_solutions;
            target_sigma := info_target_sigma access_info;
            random_seed := info_random_seed access_info;
            results := results;
            results_scaled := results_scaled;
            num_epochs := num_epochs |}
  end.

End utilities.

(* ===================================================================== *)
(** * The writer side of a run (design document, sections 3 and 4.5)      *)
(* ===================================================================== *)

Module persistence.

Import base utilities.

(** Modelled from the spec: a history row (sections 3 and 4.5), written by
    the epoch driver, which is not among the sources.  One evaluated
    candidate: the parameter values, the per-parameter spreads of its
    epoch, the overall spread and the error. *)
Record Row : Type := {
  row_values : list float;
  row_stds : list float;
  row_overall_std : float;
  row_error : float;
}.

Definition row_cells (r : Row) : list float :=
  (row_values r ++ row_stds r ++ [row_overall_std r; row_error r])%list.

(** Modelled from the spec: a completed epoch (section 3), one raw and one
    sigma-scaled row per candidate. *)
Record Epoch : Type := {
  epoch_raw : list Row;
  epoch_scaled : list Row;
}.

(** Modelled from the spec: a run (RunMetadata and its history, section
    3), the configuration and the epochs completed so far. *)
Record Run : Type := {
  run_parameters : Parameters;
  run_num_solutions : Z;
  run_target_sigma : float;
  run_random_seed : Z;
  run_epochs : list Epoch;
}.







Definition history (run : Run) : list (list float) :=
  flat_map (fun e => map row_cells (epoch_raw e)) (run_epochs run).

Definition history_scaled (run : Run) : list (list float) :=
  flat_map (fun e => map row_cells (epoch_scaled e)) (run_epochs run).

(** Modelled from the spec: the history tables are named after the
    population size (section 6); the names are those the reader looks
    for. *)
Definition history_name (n : Z) : string :=
  "opt_history_" ++ str_int n ++ ".csv".

Definition history_scaled_name (n : Z) : string :=
  "opt_history_" ++ str_int n ++ "_scaled.csv".





End persistence.

(* ===================================================================== *)
(** * Notions used in the statements                                      *)
(* ===================================================================== *)

Module spec.

Import base utilities persistence.

(** [ch] is one character, a letter or a digit of any script or the
    underscore. *)
Definition word_char (ch : string) : Prop :=
  exists cp,
    Re.utf8_head ch = Some (cp, String.length ch) /\ Re.is_word cp = true.

(** [name] is a sequence of such characters. *)
Inductive word_text : string -> Prop :=
| word_text_nil : word_text EmptyString
| word_text_cons (ch rest : string) :
    word_char ch -> word_text rest -> word_text (ch ++ rest).

(** The command holds a substitution placeholder [${varname}]. *)
Definition has_placeholder (cmd : string) : Prop :=
  exists before name after,
    cmd = before ++ "${" ++ name ++ "}" ++ after
    /\ name <> EmptyString
    /\ word_text name.

(** The five input sequences have one length. *)
Definition equal_lengths (variables commands : list string)
    (initial_values minimums maximums : list (option float)) : Prop :=
  List.length variables = List.length commands
  /\ List.length commands = List.length initial_values
  /\ List.length initial_values = List.length minimums
  /\ List.length minimums = List.length maximums.

(** Some minimum is greater than or equal to its maximum. *)
Definition inverted_bounds (minimums maximums : list (option float))
    : Prop :=
  exists i lo hi,
    nth_error minimums i = Some (Some lo)
    /\ nth_error maximums i = Some (Some hi)
    /\ F64.geb lo hi = true.

(** Some command has no placeholder. *)
Definition missing_placeholder (commands : list string) : Prop :=
  exists cmd, In cmd commands /\ ~ has_placeholder cmd.

(** A [sigma0] is given and its length is not the number of variables. *)
Definition sigma0_mismatch (variables : list string)
    (sigma0 : option (list float)) : Prop :=
  exists s, sigma0 = Some s /\ List.length s <> List.length variables.

Definition invalid_input (variables commands : list string)
    (initial_values minimums maximums : list (option float))
    (sigma0 : option (list float)) : Prop :=
  ~ equal_lengths variables commands initial_values minimums maximums
  \/ inverted_bounds minimums maximums
  \/ missing_placeholder commands
  \/ sigma0_mismatch variables sigma0.

(** Every parameter has both bounds, and [min < max]. *)
Definition all_bounded (minimums maximums : list (option float)) : bool :=
  forallb
    (fun bounds : option float * option float =>
       match bounds with
       | (Some lo, Some hi) => F64.ltb lo hi
       | _ => false
       end)
    (combine minimums maximums).

(** Parameter [i] has a resolvable sigma: both bounds with [min < max],
    or a [sigma0] was given. *)
Definition resolvable (minimums maximums : list (option float))
    (sigma0 : option (list float)) (i : nat) : Prop :=
  (exists lo hi,
     nth_error minimums i = Some (Some lo)
     /\ nth_error maximums i = Some (Some hi)
     /\ F64.ltb lo hi = true)
  \/ sigma0 <> None.

(** The sigma column holds finite numbers only. *)
Definition sigma_well_defined (p : Parameters) : Prop :=
  forallb F64.is_finite (col_sigma p) = true.

(** The largest binary64 number, [(2^53 - 1) * 2^971]. *)
Definition max_float : float := S754_finite false 9007199254740991 971.
Definition min_float : float := S754_finite true 9007199254740991 971.
(** [0.5] *)
Definition half : float := S754_finite false 4503599627370496 (-53).

(** Neither [opt_history_] nor [.csv] occurs in [path]. *)
Definition separator_free (path : string) : bool :=
  negb (Re.search (Re.strip_prefix "opt_history_") path)
  && negb (Re.search (Re.strip_prefix ".csv") path).

(** The text [os.path.join(path, f)] puts before a relative [f]. *)
Definition dir_prefix (path : string) : string :=
  match last_char path with
  | None => EmptyString
  | Some c => if Ascii.eqb c "/" then path else path ++ "/"
  end.

(** No alternative of [seps] matches at a position inside [pfx] when [rest]
    follows. *)
Definition no_match_inside (seps : list string) (pfx rest : string) : Prop :=
  forall a b,
    pfx = a ++ b -> b <> EmptyString -> Re.match_any seps (b ++ rest) = None.

(** The directory [dir] of [fs] holds a run of population [n]: among its
    entries exactly one is a history file, [opt_history_<n>.csv]; the
    metadata snapshot unpickles to [info]; the two tables load as
    two-dimensional arrays of one column per parameter, one per parameter
    spread, and two more; and neither separator of the reader occurs in
    the path. *)
Record run_directory (fs : filesystem) (dir : string) (n : Z)
    (info : AccessInfo) (table table_scaled : list (list float)) : Prop := {
  rd_listing :
    exists entries,
      listdir fs dir = Ok entries
      /\ filter (Re.search Re.match_history) entries = [history_name n];
  rd_population : (0 < n)%Z;
  rd_info : load_pickle fs (join dir "access_info.pickle") = Ok info;
  rd_history :
    loadtxt fs (join dir (history_name n))
    = Ok (Arr2 (2 * List.length (index (info_parameters info)) + 2) table);
  rd_history_scaled :
    loadtxt fs (join dir (history_scaled_name n))
    = Ok (Arr2 (2 * List.length (index (info_parameters info)) + 2)
            table_scaled);
  rd_path : separator_free dir = true;
}.

(** The typed view of such a directory. *)
Definition view (n : Z) (info : AccessInfo)
    (table table_scaled : list (list float)) : AccessData :=
  {| utilities.parameters := info_parameters info;
     num_solutions := n;
     target_sigma := info_target_sigma info;
     random_seed := info_random_seed info;
     results :=
       {| columns := results_columns (info_parameters info);
          rows := table |};
     results_scaled :=
       {| columns := results_columns (info_parameters info);
          rows := table_scaled |};
     num_epochs := Z.of_nat (List.length table) / n |}.



(** [rest] does not go on with a character of the class. *)
Definition stops (p : ascii -> bool) (rest : string) : Prop :=
  match rest with
  | EmptyString => True
  | String c _ => p c = false
  end.

(** The table a valid call builds. *)
Definition built (variables commands : list string)
    (initial_values minimums maximums : list (option float))
    (sigma0 : option (list float)) : Parameters :=
  let lo := as_float_array minimums in
  let hi := as_float_array maximums in
  {| index := variables;
     col_command := commands;
     col_value := as_float_array initial_values;
     col_min := lo;
     col_max := hi;
     col_sigma :=
       match sigma0 with
       | Some s => s
       | None => map (F64.mul F64.c0_2) (zip_with F64.sub hi lo)
       end |}.

End spec.

(* ===================================================================== *)
(** * Example inputs                                                      *)
(* ===================================================================== *)

Module examples.

Import base utilities persistence spec.

(** [0.75] and [2.0] *)
Definition three_quarters : float := S754_finite false 6755399441055744 (-53).
Definition two : float := S754_finite false 4503599627370496 (-51).

(** [str] on the floats the examples format. *)
Definition example_float_str : FloatStr :=
  fun f =>
    if SFeqb f half then "0.5"
    else if SFeqb f three_quarters then "0.75"
    else if SFeqb f two then "2.0"
    else "nan".

(** An engine that records the commands it is sent, latest first, and in
    which every variable is [0.5]. *)
Definition recording_engine : Liggghts (list string) :=
  {| liggghts_new := fun _ => [];
     file := fun log path => ("file " ++ path) :: log;
     command := fun log cmd => cmd :: log;
     extract_global := fun _ _ => F64.c0_2;
     extract_variable := fun _ _ => PyFloat half |}.

(** The table of the final block of [base.py]. *)
Definition example_parameters : Parameters :=
  {| index := ["corPP"; "corPW"];
     col_command :=
       ["fix m3 all property/global cor ${corPP} ${corPW}";
        "fix m3 all property/global cor ${corPP} ${corPW}"];
     col_value := [half; half];
     col_min := [F64.zero; F64.zero];
     col_max := [F64.one; F64.one];
     col_sigma := [F64.c0_2; F64.c0_2] |}.

Definition example_simulation : Simulation (list string) :=
  {| base.simulation := [];
     base.filename := "run.sim";
     base.parameters := example_parameters;
     base._step_size := F64.c0_2;
     base._verbose := true |}.

(** A run of two epochs of two candidates over the two parameters of
    [example_parameters], as its directory holds it. *)
Definition example_info : AccessInfo :=
  {| info_parameters := example_parameters;
     info_target_sigma := F64.c0_2;
     info_random_seed := 42;
     info_other := [("num_epochs", PyInt 25)] |}.

Definition example_table : list (list float) :=
  [[half; half; F64.c0_2; F64.c0_2; F64.c0_2; two];
   [three_quarters; half; F64.c0_2; F64.c0_2; F64.c0_2; F64.one];
   [half; three_quarters; F64.c0_2; F64.c0_2; F64.c0_2; half];
   [three_quarters; three_quarters; F64.c0_2; F64.c0_2; F64.c0_2; F64.zero]].

Definition example_table_scaled : list (list float) :=
  [[two; two; F64.one; F64.one; F64.c0_2; two];
   [two; two; F64.one; F64.one; F64.c0_2; F64.one];
   [two; two; F64.one; F64.one; F64.c0_2; half];
   [two; two; F64.one; F64.one; F64.c0_2; F64.zero]].

(** The directories that hold that run. *)
Definition example_run_dirs : list string :=
  ["access_data/access_seed123"; "access_data/access_info_000042";
   "runs/access_info_000042"; "modern/access_seed123"].

Definition is_file_of (dirs : list string) (name p : string) : bool :=
  existsb (fun dir => String.eqb p (dir ++ "/" ++ name)) dirs.

(** A file system: [access_data] holds two runs, as the test data of the
    repository; [runs] holds an empty run directory before a complete one;
    [modern] holds one run under a name without the legacy prefix. *)
Definition example_fs : filesystem :=
  {| listdir := fun p =>
       if String.eqb p "access_data"
       then Ok ["access_seed123"; "access_info_000042"]
       else if String.eqb p "runs"
       then Ok ["access_info_000001"; "access_info_000042"]
       else if String.eqb p "modern"
       then Ok ["access_seed123"]
       else if String.eqb p "runs/access_info_000001"
       then Ok []
       else if existsb (String.eqb p) example_run_dirs
       then Ok ["access_info.pickle"; "opt_history_2.csv";
                "opt_history_2_scaled.csv"]
       else Raise OSError;
     load_pickle := fun p =>
       if is_file_of example_run_dirs "access_info.pickle" p
       then Ok example_info
       else Raise OSError;
     loadtxt := fun p =>
       if is_file_of example_run_dirs "opt_history_2.csv" p
       then Ok (Arr2 6 example_table)
       else if is_file_of example_run_dirs "opt_history_2_scaled.csv" p
       then Ok (Arr2 6 example_table_scaled)
       else Raise OSError |}.








End examples.

(* ===================================================================== *)
(** * Further notions: the shape of a parameter table                     *)
(* ===================================================================== *)

Module shape.

Import base.

(** Every column has one cell per label of the index, as in a frame. *)
Definition well_formed (p : Parameters) : bool :=
  Nat.eqb (List.length (col_command p)) (List.length (index p))
  && Nat.eqb (List.length (col_value p)) (List.length (index p))
  && Nat.eqb (List.length (col_min p)) (List.length (index p))
  && Nat.eqb (List.length (col_max p)) (List.length (index p))
  && Nat.eqb (List.length (col_sigma p)) (List.length (index p)).

(** The labels of the index are pairwise distinct. *)
Fixpoint distinct (labels : list string) : bool :=
  match labels with
  | [] => true
  | l :: labels' => negb (existsb (String.eqb l) labels') && distinct labels'
  end.

(** The cells of a column in the rows labelled [key]. *)
Definition cells {A : Type} (labels : list string) (column : list A)
    (key : string) : list A :=
  map snd (filter (fun row => String.eqb (fst row) key)
             (combine labels column)).






(** A table in which a label is repeated. *)
Definition repeated_parameters : Parameters :=
  {| index := ["corPP"; "corPP"];
     col_command := ["fix m3 ${corPP}"; "fix m3 ${corPP}"];
     col_value := [spec.half; spec.half];
     col_min := [F64.zero; F64.zero];
     col_max := [F64.one; F64.one];
     col_sigma := [F64.c0_2; F64.c0_2] |}.

End shape.

(* ===================================================================== *)
(** * Further run directories                                             *)
(* ===================================================================== *)

Module layouts.

Import base utilities examples.

Definition edge_dirs : list string := ["edge/many"; "edge/none"; "edge/zero"].

(** Run directories as an interrupted or repeated run leaves them: [many]
    holds the history files of two population sizes, [none] holds the
    snapshot alone, [zero] holds a history file named for a population of
    zero. *)
Definition edge_fs : filesystem :=
  {| listdir := fun p =>
       if String.eqb p "edge/many"
       then Ok ["opt_history_2.csv"; "access_info.pickle";
                "opt_history_4.csv"; "opt_history_2_scaled.csv";
                "opt_history_4_scaled.csv"]
       else if String.eqb p "edge/none"
       then Ok ["access_info.pickle"]
       else if String.eqb p "edge/zero"
       then Ok ["access_info.pickle"; "opt_history_0.csv";
                "opt_history_0_scaled.csv"]
       else if String.eqb p "edge"
       then Ok ["access_info_none"; "many"]
       else if String.eqb p "edge/access_info_none"
       then Ok ["access_info.pickle"]
       else Raise OSError;
     load_pickle := fun p =>
       if is_file_of ("edge/access_info_none" :: edge_dirs)
            "access_info.pickle" p
       then Ok example_info
       else Raise OSError;
     loadtxt := fun p =>
       if String.eqb p "edge/many/opt_history_2.csv"
       then Ok (Arr2 6 example_table_scaled)
       else if String.eqb p "edge/many/opt_history_2_scaled.csv"
       then Ok (Arr2 6 example_table_scaled)
       else if String.eqb p "edge/many/opt_history_4.csv"
       then Ok (Arr2 6 example_table)
       else if String.eqb p "edge/many/opt_history_4_scaled.csv"
       then Ok (Arr2 6 example_table_scaled)
       else if String.eqb p "edge/zero/opt_history_0.csv"
       then Ok (Arr2 6 example_table)
       else if String.eqb p "edge/zero/opt_history_0_scaled.csv"
       then Ok (Arr2 6 example_table_scaled)
       else Raise OSError |}.



End layouts.

(* ===================================================================== *)
(** * coexist/base.py: running for a time, and restarting                 *)
(* ===================================================================== *)

Module stepping.

Import base.

(** What these methods raise: the exceptions above, and two more. *)
Inductive raised : Type :=
| Builtin (e : exception)
| NameError
| OverflowError.

Inductive outcome (A : Type) : Type :=
| Returns (a : A)
| Throws (e : raised).

Arguments Returns {A} a.
Arguments Throws {A} e.

Definition lift {A : Type} (r : result A) : outcome A :=
  match r with
  | Ok a => Returns a
  | Raise e => Throws (Builtin e)
  end.

(** ** Arithmetic of the interpreter *)

(** [a / b] on floats: a zero divisor raises, whatever [a] is. *)
Definition truediv (a b : float) : outcome float :=
  if F64.nonzero b then Returns (SFdiv F64.prec F64.emax a b)
  else Throws (Builtin ZeroDivisionError).

(** [int(x)] for a float: truncation towards zero. *)
Definition int_of_float (x : float) : outcome Z :=
  match x with
  | S754_nan => Throws (Builtin ValueError)
  | S754_infinity _ => Throws OverflowError
  | S754_zero _ => Returns 0%Z
  | S754_finite s m e =>
      let magnitude := Z.shiftl (Z.pos m) e in
      Returns (if s then Z.opp magnitude else magnitude)
  end.

(** An integer operand of a float operation, converted (to nearest,
    ties to even). *)
Definition float_of_int (n : Z) : outcome float :=
  match binary_normalize F64.prec F64.emax n 0 false with
  | S754_infinity _ => Throws OverflowError
  | f => Returns f
  end.

(** [a % b] for a non-zero [b] is the interpreter's ([fmod], then the sign
    of the divisor). *)
Class FloatRem : Type := float_rem : float -> float -> float.

(** [a % b] on floats *)
Definition mod_ `{FloatRem} (a b : float) : outcome float :=
  if F64.nonzero b then Returns (float_rem a b)
  else Throws (Builtin ZeroDivisionError).

(** The float [1000000.0] *)
Definition c1000000 : float := S754_finite false 8589934592000000 (-33).

Section Methods.
Context {E : Type} `{Liggghts E} `{FloatStr} `{FloatRem}.

(** ** Method bodies: the instance threaded through, until something
    raises *)
Definition action (A : Type) : Type :=
  Simulation E -> Simulation E * outcome A.

Definition ret {A : Type} (a : A) : action A :=
  fun self => (self, Returns a).

Definition throw {A : Type} (e : raised) : action A :=
  fun self => (self, Throws e).

Definition seq {A B : Type} (m : action A) (k : A -> action B) : action B :=
  fun self =>
    match m self with
    | (self', Returns a) => k a self'
    | (self', Throws e) => (self', Throws e)
    end.

(** An expression that reads the instance. *)
Definition get {A : Type} (f : Simulation E -> A) : action A :=
  fun self => (self, Returns (f self)).

(** An expression that may raise. *)
Definition eval {A : Type} (o : outcome A) : action A :=
  fun self => (self, o).

(** A call of one of the methods above. *)
Definition call {A : Type} (m : Simulation E -> method A) : action A :=
  fun self => let (self', r) := m self in (self', lift r).

Definition run (m : Simulation E -> Simulation E) : action unit :=
  fun self => (m self, Returns tt).

Notation "x <~ m ;; k" := (seq m (fun x => k))
  (at level 61, m at next level, right associativity).

(** [time] *)
Definition time (self : Simulation E) : float :=
  extract_global (simulation self) "atime".

(** [step_time], for a float [time] *)
Definition step_time (time : float) : action unit :=
  dt <~ get step_size ;;
  quotient <~ eval (truediv time dt) ;;
  whole <~ eval (int_of_float quotient) ;;
  divisor <~ eval (float_of_int (whole + 1)) ;;
  new_dt <~ eval (truediv time divisor) ;;
  steps <~ eval (truediv time new_dt) ;;
  old_dt <~ get step_size ;;
  _ <~ call (fun self => set_step_size self new_dt) ;;
  _ <~ run (fun self => step self (PyFloat steps)) ;;
  call (fun self => set_step_size self old_dt).

(** [step_to_time], for a float [time].  The name [nsteps] is bound
    neither in the function (its names are [self], [time], [rest_time],
    [n_steps] and [old_dt]), nor at the top of [base.py], nor among the
    built-ins. *)
Definition step_to_time (time' : float) : action unit :=
  now <~ get time ;;
  if F64.ltb time' now then throw (Builtin ValueError)
  else
    now <~ get time ;;
    dt <~ get step_size ;;
    rest_time <~ eval (mod_ (F64.sub time' now) dt) ;;
    now <~ get time ;;
    dt <~ get step_size ;;
    n_steps <~ eval (truediv (F64.sub (F64.sub time' now) rest_time) dt) ;;
    nsteps <~ throw NameError ;;
    _ <~ run (fun self => step self nsteps) ;;
    old_dt <~ get step_size ;;
    _ <~ call (fun self => set_step_size self rest_time) ;;
    _ <~ run (fun self => step self (PyInt 1)) ;;
    call (fun self => set_step_size self old_dt).

(** ** load *)

(** The text files of the working directory, each as the lines
    [readlines] returns and [writelines] writes. *)
Definition files : Type := string -> option (list string).

Definition write (fs : files) (name : string) (lines : list string)
    : files :=
  fun p => if String.eqb p name then Some lines else fs p.

Definition remove (fs : files) (name : string) : files :=
  fun p => if String.eqb p name then None else fs p.

Definition newline : string := String (ascii_of_nat 10) EmptyString.

(** The loop over [enumerate(lines)]. *)
Definition restart_lines (filename : string) (lines : list string)
    : list string :=
  map (fun line =>
         if String.eqb (utilities.before_first "read_restart" line) ""
         then "read_restart " ++ filename ++ newline
         else line)
    lines.

(** [load].  [draw] is what [np.random.random()] returns; writing the
    temporary file succeeds. *)
Definition load (fs : files) (draw : float) (filename : string)
    (self : Simulation E) : files * Simulation E * outcome unit :=
  match fs (base.filename self) with
  | None => (fs, self, Throws (Builtin OSError))
  | Some lines =>
      let lines := restart_lines filename lines in
      match int_of_float (F64.mul draw c1000000) with
      | Throws e => (fs, self, Throws e)
      | Returns number =>
          let temporary_fname := "temp_" ++ str_int number ++ ".restart" in
          let fs := write fs temporary_fname lines in
          let engine :=
            if _verbose self then liggghts_new []
            else liggghts_new ["-screen"; "/dev/null"] in
          let engine := file engine temporary_fname in
          (remove fs temporary_fname, with_engine self engine, Returns tt)
      end
  end.

End Methods.

End stepping.

Module stepping_examples.

Import base stepping examples.

(** [1.5] *)
Definition one_and_a_half : float :=
  S754_finite false 6755399441055744 (-52).

(** An instance whose engine reported a step size of [0.75], and one
    whose engine reported [1.0]. *)
Definition fine_simulation : Simulation (list string) :=
  {| base.simulation := [];
     base.filename := "run.sim";
     base.parameters := example_parameters;
     base._step_size := three_quarters;
     base._verbose := true |}.

Definition coarse_simulation : Simulation (list string) :=
  {| base.simulation := [];
     base.filename := "run.sim";
     base.parameters := example_parameters;
     base._step_size := F64.one;
     base._verbose := false |}.

(** The lines of a script that reads a restart file. *)
Definition example_script : list string :=
  ["# continue a run" ++ newline;
   "read_restart restart.data" ++ newline;
   "  read_restart indented.data" ++ newline;
   "timestep 0.2" ++ newline].

(** A working directory with the script, and a file that happens to have
    the name of a temporary one. *)
Definition example_files : files :=
  fun p =>
    if String.eqb p "run.sim" then Some example_script
    else if String.eqb p "temp_500000.restart" then Some ["kept" ++ newline]
    else None.

End stepping_examples.

(* ===================================================================== *)
(** * Strings: facts about the matchers                                   *)
(* ===================================================================== *)

Section ReFacts.

Import Re spec.

Lemma strip_prefix_app (lit r : string) :
  strip_prefix lit (lit ++ r) = Some r.
Proof.
  induction lit as [|a lit IH]; simpl; [reflexivity|].
  now rewrite Ascii.eqb_refl.
Qed.

Lemma strip_prefix_inv (lit s r : string) :
  strip_prefix lit s = Some r -> s = lit ++ r.
Proof.
  revert s; induction lit as [|a lit IH]; intros s; simpl.
  - now intros [= ->].
  - destruct s as [|b s]; [discriminate|].
    destruct (Ascii.eqb_spec a b) as [->|]; [|discriminate].
    intros Hs. now rewrite (IH _ Hs).
Qed.

Lemma append_assoc (a b c : string) : (a ++ b) ++ c = a ++ b ++ c.
Proof. induction a as [|x a IH]; simpl; [reflexivity|now rewrite IH]. Qed.

Lemma append_nil_r (a : string) : a ++ "" = a.
Proof. induction a as [|x a IH]; simpl; [reflexivity|now rewrite IH]. Qed.

Lemma span_inv (p : ascii -> bool) (s run rest : string) :
  span p s = (run, rest) ->
  s = run ++ rest /\ all_chars p run = true /\ stops p rest.
Proof.
  revert run rest; induction s as [|c s IH]; intros run rest; simpl.
  - intros [= <- <-]. now simpl.
  - destruct (p c) eqn:Hc.
    + destruct (span p s) as [run' rest'] eqn:Hs.
      intros [= <- <-]. destruct (IH _ _ eq_refl) as (-> & Hall & Hstop).
      simpl. now rewrite Hc, Hall.
    + intros [= <- <-]. simpl. now rewrite Hc.
Qed.


Lemma match_run_inv pre cls post s run rest :
  match_run pre cls post s = Some (run, rest) ->
  s = pre ++ run ++ post ++ rest
  /\ run <> EmptyString /\ all_chars cls run = true.
Proof.
  unfold match_run.
  destruct (strip_prefix pre s) as [r|] eqn:Hpre; [|discriminate].
  destruct (span cls r) as [run' r'] eqn:Hspan.
  destruct run' as [|c run']; [discriminate|].
  destruct (strip_prefix post r') as [rest'|] eqn:Hpost; [|discriminate].
  intros [= <- <-].
  apply strip_prefix_inv in Hpre, Hpost.
  apply span_inv in Hspan as (-> & Hall & _).
  subst. split; [reflexivity|split; [discriminate|assumption]].
Qed.


Lemma search_true_inv {X} (m : string -> option X) (s : string) :
  search m s = true ->
  exists before tail x, s = before ++ tail /\ m tail = Some x.
Proof.
  induction s as [|c s IH]; simpl.
  - destruct (m "") as [x|] eqn:Hm; [|discriminate].
    intros _. now exists "", "", x.
  - destruct (m (String c s)) as [x|] eqn:Hm.
    + intros _. now exists "", (String c s), x.
    + intros Hs. destruct (IH Hs) as (before & tail & x & -> & Hx).
      now exists (String c before), tail, x.
Qed.

Lemma search_app {X} (m : string -> option X) (before tail : string) x :
  m tail = Some x -> search m (before ++ tail) = true.
Proof.
  intros Hm. induction before as [|c before IH]; simpl.
  - destruct tail; simpl; now rewrite Hm.
  - now destruct (m (String c (before ++ tail))).
Qed.

Lemma length_append (a b : string) :
  String.length (a ++ b) = (String.length a + String.length b)%nat.
Proof. induction a as [|c a IH]; simpl; [reflexivity|now rewrite IH]. Qed.

(** The bytes of a character are at the head of the text, and decoding
    does not look beyond them. *)
Lemma continuation_split (k : nat) (s : string) (acc cp : N) :
  continuation k s acc = Some cp ->
  exists ch rest,
    s = ch ++ rest /\ String.length ch = k
    /\ forall rest', continuation k (ch ++ rest') acc = Some cp.
Proof.
  revert s acc; induction k as [|k IH]; intros s acc; simpl.
  - intros [= <-]. now exists "", s.
  - destruct s as [|c s]; [discriminate|].
    destruct ((128 <=? N_of_ascii c)%N && (N_of_ascii c <? 192)%N) eqn:Hc;
      [|discriminate].
    intros Hk. destruct (IH _ _ Hk) as (ch & rest & -> & Hlen & Hstable).
    exists (String c ch), rest. simpl. rewrite Hc, Hlen.
    split; [reflexivity|]. split; [reflexivity|exact Hstable].
Qed.

Lemma utf8_head_split (s : string) (cp : N) (n : nat) :
  utf8_head s = Some (cp, n) ->
  exists ch rest,
    s = ch ++ rest /\ String.length ch = n /\ n <> O
    /\ forall rest', utf8_head (ch ++ rest') = Some (cp, n).
Proof.
  unfold utf8_head. destruct s as [|c s]; [discriminate|].
  destruct (N_of_ascii c <? 128)%N eqn:H1.
  { intros [= <- <-]. exists (String c ""), s. simpl. rewrite H1.
    now repeat split. }
  destruct (N_of_ascii c <? 192)%N eqn:H2; [discriminate|].
  assert (Hmore : forall k lo hi acc,
            encoded_in (S k) lo hi (continuation k s acc) = Some (cp, n) ->
            exists ch rest,
              s = ch ++ rest /\ S (String.length ch) = n
              /\ forall rest',
                   encoded_in (S k) lo hi (continuation k (ch ++ rest') acc)
                   = Some (cp, n)).
  { intros k lo hi acc Hk.
    destruct (continuation k s acc) as [cp'|] eqn:Hc; [|discriminate].
    destruct (continuation_split _ _ _ _ Hc) as (ch & rest & -> & Hlen & Hst).
    exists ch, rest. split; [reflexivity|]. split.
    - rewrite Hlen. simpl in Hk.
      destruct ((lo <=? cp')%N && (cp' <=? hi)%N); [|discriminate].
      now injection Hk.
    - intros rest'. now rewrite Hst. }
  destruct (N_of_ascii c <? 224)%N eqn:H3.
  { intros Hk. destruct (Hmore _ _ _ _ Hk) as (ch & rest & -> & Hlen & Hst).
    exists (String c ch), rest. simpl. rewrite H1, H2, H3.
    split; [reflexivity|]. split; [exact Hlen|].
    split; [now rewrite <- Hlen|exact Hst]. }
  destruct (N_of_ascii c <? 240)%N eqn:H4.
  { intros Hk. destruct (Hmore _ _ _ _ Hk) as (ch & rest & -> & Hlen & Hst).
    exists (String c ch), rest. simpl. rewrite H1, H2, H3, H4.
    split; [reflexivity|]. split; [exact Hlen|].
    split; [now rewrite <- Hlen|exact Hst]. }
  destruct (N_of_ascii c <? 248)%N eqn:H5; [|discriminate].
  intros Hk. destruct (Hmore _ _ _ _ Hk) as (ch & rest & -> & Hlen & Hst).
  exists (String c ch), rest. simpl. rewrite H1, H2, H3, H4, H5.
  split; [reflexivity|]. split; [exact Hlen|].
  split; [now rewrite <- Hlen|exact Hst].
Qed.

(** A word character at the head of the text. *)
Lemma word_head_split (s : string) (k : nat) :
  word_head s = S k ->
  exists ch rest,
    s = ch ++ rest /\ String.length ch = S k /\ word_char ch
    /\ forall rest', word_head (ch ++ rest') = S k.
Proof.
  unfold word_head.
  destruct (utf8_head s) as [[cp n]|] eqn:Hhead; [|discriminate].
  destruct (is_word cp) eqn:Hword; [|discriminate]. intros ->.
  destruct (utf8_head_split _ _ _ Hhead) as (ch & rest & -> & Hlen & _ & Hst).
  exists ch, rest. split; [reflexivity|]. split; [exact Hlen|]. split.
  - exists cp. split; [|exact Hword].
    rewrite Hlen, <- (append_nil_r ch) at 1. apply Hst.
  - intros rest'. now rewrite Hst, Hword.
Qed.

Lemma word_char_head (ch rest : string) :
  word_char ch ->
  exists k, String.length ch = S k /\ word_head (ch ++ rest) = S k.
Proof.
  intros (cp & Hhead & Hword).
  destruct (utf8_head_split _ _ _ Hhead)
    as (ch' & rest' & Hch & Hlen & Hn & Hst).
  assert (Hrest : rest' = "").
  { apply (f_equal String.length) in Hch.
    rewrite length_append, Hlen in Hch.
    destruct rest'; [reflexivity|simpl in Hch; lia]. }
  subst rest'. rewrite append_nil_r in Hch. subst ch'.
  destruct (String.length ch) as [|k] eqn:Hk; [congruence|].
  exists k. split; [reflexivity|].
  unfold word_head. now rewrite Hst, Hword.
Qed.

Lemma span_word_pending (x s : string) :
  span_word (String.length x) (x ++ s)
  = (x ++ fst (span_word 0 s), snd (span_word 0 s)).
Proof.
  induction x as [|c x IH]; simpl.
  - now destruct (span_word 0 s).
  - now rewrite IH.
Qed.

Lemma span_word_char (ch rest : string) (k : nat) :
  String.length ch = S k -> word_head (ch ++ rest) = S k ->
  span_word 0 (ch ++ rest)
  = (ch ++ fst (span_word 0 rest), snd (span_word 0 rest)).
Proof.
  intros Hlen Hhead. destruct ch as [|c ch]; [discriminate Hlen|].
  injection Hlen as Hlen. simpl append in *. cbn [span_word].
  rewrite Hhead, <- Hlen, span_word_pending. reflexivity.
Qed.

Lemma span_word_stop (s : string) :
  word_head s = O -> span_word 0 s = ("", s).
Proof.
  intros Hstop. destruct s as [|c s]; [reflexivity|].
  cbn [span_word]. now rewrite Hstop.
Qed.

Lemma span_word_inv (s run rest : string) :
  span_word 0 s = (run, rest) ->
  s = run ++ rest /\ word_text run /\ word_head rest = O.
Proof.
  remember (String.length s) as n eqn:Hn.
  revert s run rest Hn.
  induction n as [n IH] using lt_wf_ind. intros s run rest Hn.
  destruct (word_head s) as [|k] eqn:Hhead.
  - rewrite (span_word_stop _ Hhead). intros [= <- <-].
    split; [reflexivity|]. split; [constructor|exact Hhead].
  - destruct (word_head_split _ _ Hhead)
      as (ch & tail & -> & Hlen & Hch & _).
    rewrite (span_word_char _ _ _ Hlen Hhead).
    destruct (span_word 0 tail) as [run' rest'] eqn:Htail.
    intros [= <- <-].
    assert (Hshorter : (String.length tail < n)%nat)
      by (subst n; rewrite length_append; lia).
    destruct (IH _ Hshorter tail run' rest' eq_refl Htail)
      as (-> & Hrun & Hstop).
    split; [now rewrite append_assoc|].
    split; [now constructor|exact Hstop].
Qed.

Lemma span_word_app (run rest : string) :
  word_text run -> word_head rest = O ->
  span_word 0 (run ++ rest) = (run, rest).
Proof.
  intros Hrun Hstop. induction Hrun as [|ch run Hch Hrun IH]; simpl append.
  - now apply span_word_stop.
  - rewrite append_assoc.
    destruct (word_char_head ch (run ++ rest) Hch) as (k & Hlen & Hhead).
    now rewrite (span_word_char _ _ _ Hlen Hhead), IH.
Qed.


Lemma match_placeholder_inv (s name rest : string) :
  match_placeholder s = Some (name, rest) ->
  s = "${" ++ name ++ "}" ++ rest
  /\ name <> EmptyString /\ word_text name.
Proof.
  unfold match_placeholder.
  destruct (strip_prefix "${" s) as [r|] eqn:Hpre; [|discriminate].
  destruct (span_word 0 r) as [name' r'] eqn:Hspan.
  destruct name' as [|c name']; [discriminate|].
  destruct (strip_prefix "}" r') as [rest'|] eqn:Hpost; [|discriminate].
  intros [= <- <-].
  apply strip_prefix_inv in Hpre, Hpost.
  apply span_word_inv in Hspan as (-> & Hword & _).
  subst. split; [reflexivity|split; [discriminate|assumption]].
Qed.

Lemma match_placeholder_app (name rest : string) :
  name <> EmptyString -> word_text name ->
  match_placeholder ("${" ++ name ++ "}" ++ rest) = Some (name, rest).
Proof.
  intros Hne Hword. unfold match_placeholder.
  rewrite strip_prefix_app.
  rewrite (span_word_app name ("}" ++ rest) Hword eq_refl).
  destruct name; [congruence|]. now rewrite strip_prefix_app.
Qed.






(** [re.search] with the placeholder pattern decides [has_placeholder]. *)
Lemma search_placeholder_iff (cmd : string) :
  search match_placeholder cmd = true <-> spec.has_placeholder cmd.
Proof.
  split.
  - intros Hs.
    destruct (search_true_inv _ _ Hs) as (before & tail & [name rest] & -> & Hm).
    apply match_placeholder_inv in Hm as (-> & Hne & Hall).
    now exists before, name, rest.
  - intros (before & name & rest & -> & Hne & Hall).
    apply search_app with (x := (name, rest)).
    now apply match_placeholder_app.
Qed.

End ReFacts.

(* ===================================================================== *)
(** * Parameters                                                          *)
(* ===================================================================== *)

Section ParametersFacts.

Import base spec.

Lemma geb_nan_l (b : float) : F64.geb F64.nan b = false.
Proof. reflexivity. Qed.

Lemma geb_nan_r (a : float) : F64.geb a F64.nan = false.
Proof. now destruct a. Qed.

Lemma same_lengths_iff variables commands initial_values minimums maximums :
  same_lengths variables commands initial_values minimums maximums = true
  <-> equal_lengths variables commands initial_values minimums maximums.
Proof.
  unfold same_lengths, equal_lengths.
  rewrite !andb_true_iff, !Nat.eqb_eq. tauto.
Qed.

Lemma inverted_bounds_iff (minimums maximums : list (option float)) :
  existsb (fun b : bool => b)
    (zip_with F64.geb (as_float_array minimums) (as_float_array maximums))
  = true
  <-> inverted_bounds minimums maximums.
Proof.
  unfold inverted_bounds.
  revert maximums; induction minimums as [|lo los IH]; intros [|hi his];
    simpl.
  - split; [discriminate|]. now intros ([|i] & ? & ? & ? & _).
  - split; [discriminate|]. now intros ([|i] & ? & ? & ? & _).
  - split; [discriminate|]. now intros ([|i] & ? & ? & _ & ? & _).
  - rewrite orb_true_iff, IH. split.
    + intros [Hge|(i & a & b & Ha & Hb & Hge)].
      * destruct lo as [a|]; [|now rewrite geb_nan_l in Hge].
        destruct hi as [b|]; [|now rewrite geb_nan_r in Hge].
        now exists 0%nat, a, b.
      * now exists (S i), a, b.
    + intros ([|i] & a & b & Ha & Hb & Hge); simpl in *.
      * injection Ha as ->. injection Hb as ->. now left.
      * right. now exists i, a, b.
Qed.

Lemma missing_placeholder_iff (commands : list string) :
  existsb (fun cmd => negb (Re.search Re.match_placeholder cmd)) commands
  = true
  <-> missing_placeholder commands.
Proof.
  unfold missing_placeholder. rewrite existsb_exists.
  split; intros (cmd & Hin & Hcmd); exists cmd; split; try assumption.
  - rewrite <- search_placeholder_iff.
    now destruct (Re.search Re.match_placeholder cmd).
  - rewrite <- search_placeholder_iff in Hcmd.
    now destruct (Re.search Re.match_placeholder cmd).
Qed.

(** The constructor either raises [ValueError] on an invalid input or
    returns [built] on a valid one. *)
Lemma Parameters_init_cases variables commands initial_values minimums
    maximums sigma0 :
  let r := Parameters_init variables commands initial_values minimums
             maximums sigma0 in
  (invalid_input variables commands initial_values minimums maximums sigma0
   /\ r = Raise ValueError)
  \/ (~ invalid_input variables commands initial_values minimums maximums
        sigma0
      /\ r = Ok (built variables commands initial_values minimums maximums
                   sigma0)).
Proof.
  unfold Parameters_init, invalid_input, built; simpl.
  destruct (same_lengths _ _ _ _ _) eqn:Hlen; simpl.
  2:{ left. split; [left|reflexivity].
      rewrite <- same_lengths_iff. congruence. }
  apply same_lengths_iff in Hlen.
  destruct (existsb (fun b : bool => b) _) eqn:Hinv.
  { left. split; [right; left|reflexivity].
    now apply inverted_bounds_iff. }
  assert (Hninv : ~ inverted_bounds minimums maximums).
  { rewrite <- inverted_bounds_iff. congruence. }
  destruct sigma0 as [s|]; simpl.
  - destruct (Nat.eqb_spec (List.length s) (List.length variables))
      as [Hs|Hs]; simpl.
    + destruct (existsb _ commands) eqn:Hcmd.
      * left. split; [right; right; left|reflexivity].
        now apply missing_placeholder_iff.
      * right. split; [|reflexivity].
        intros [H|[H|[H|(s' & [= <-] & H)]]]; try tauto.
        apply missing_placeholder_iff in H. congruence.
    + left. split; [|reflexivity]. right; right; right. now exists s.
  - destruct (existsb _ commands) eqn:Hcmd.
    + left. split; [right; right; left|reflexivity].
      now apply missing_placeholder_iff.
    + right. split; [|reflexivity].
      intros [H|[H|[H|(s' & [=] & _)]]]; try tauto.
      apply missing_placeholder_iff in H. congruence.
Qed.

End ParametersFacts.

(* ===================================================================== *)
(** * binary64: comparison and rounding never invent a NaN                *)
(* ===================================================================== *)

Section FloatFacts.

Variables prec emax : Z.

Lemma shr_1_nonneg (mrs : shr_record) :
  (0 <= shr_m mrs)%Z -> (0 <= shr_m (shr_1 mrs))%Z.
Proof.
  destruct mrs as [m r s]; simpl.
  destruct m as [|[p|p|]|[p|p|]]; simpl; lia.
Qed.

Lemma iter_pos_invariant {A : Type} (P : A -> Prop) (f : A -> A) :
  (forall x, P x -> P (f x)) ->
  forall (n : positive) (x : A), P x -> P (iter_pos f n x).
Proof.
  intros Hf n; induction n as [n IH|n IH|]; intros x Hx; simpl; auto.
Qed.

Lemma shr_nonneg (mrs : shr_record) (e n : Z) :
  (0 <= shr_m mrs)%Z -> (0 <= shr_m (fst (shr mrs e n)))%Z.
Proof.
  intros Hm. destruct n as [|p|p]; simpl; try assumption.
  apply (iter_pos_invariant (fun x => 0 <= shr_m x)%Z); [|exact Hm].
  apply shr_1_nonneg.
Qed.

Lemma shr_record_of_loc_m (m : Z) (l : location) :
  shr_m (shr_record_of_loc m l) = m.
Proof. now destruct l as [|[]]. Qed.

Lemma shr_fexp_nonneg (m e : Z) (l : location) :
  (0 <= m)%Z -> (0 <= shr_m (fst (shr_fexp prec emax m e l)))%Z.
Proof.
  intros Hm. unfold shr_fexp. apply shr_nonneg.
  now rewrite shr_record_of_loc_m.
Qed.

Lemma round_nearest_even_nonneg (m : Z) (l : location) :
  (0 <= m)%Z -> (0 <= round_nearest_even m l)%Z.
Proof.
  intros Hm. destruct l as [|[]]; simpl; try assumption; try lia.
  destruct (Z.even m); lia.
Qed.

Lemma binary_round_aux_not_nan (sx : bool) (mx ex : Z) (lx : location) :
  (0 <= mx)%Z -> binary_round_aux prec emax sx mx ex lx <> S754_nan.
Proof.
  intros Hm. unfold binary_round_aux.
  pose proof (shr_fexp_nonneg mx ex lx Hm) as H1.
  destruct (shr_fexp prec emax mx ex lx) as [mrs' e']; simpl in H1.
  pose proof (shr_fexp_nonneg _ e' loc_Exact
                (round_nearest_even_nonneg _ (loc_of_shr_record mrs') H1))
    as H2.
  destruct (shr_fexp prec emax _ e' loc_Exact) as [mrs'' e'']; simpl in H2.
  destruct (shr_m mrs'') as [|m|m]; [discriminate| |lia].
  destruct (Z.leb e'' (emax - prec)); discriminate.
Qed.

Lemma binary_normalize_not_nan (m e : Z) (szero : bool) :
  binary_normalize prec emax m e szero <> S754_nan.
Proof.
  unfold binary_normalize, binary_round.
  destruct m as [|m|m]; [discriminate| |].
  - destruct (shl_align m e _) as [mz ez].
    apply binary_round_aux_not_nan; lia.
  - destruct (shl_align m e _) as [mz ez].
    apply binary_round_aux_not_nan; lia.
Qed.

(** [hi - lo] is a number as soon as [lo < hi]. *)
Lemma SFsub_not_nan (lo hi : spec_float) :
  SFltb lo hi = true -> SFsub prec emax hi lo <> S754_nan.
Proof.
  unfold SFltb.
  destruct lo as [s1|s1| |s1 m1 e1], hi as [s2|s2| |s2 m2 e2];
    try (intros _; cbv beta iota delta [SFsub]; cbv zeta;
         apply binary_normalize_not_nan);
    repeat match goal with s : bool |- _ => destruct s end;
    simpl; intros Hlt; try discriminate Hlt; intros [=].
Qed.

(** Scaling a number by a non-zero finite constant gives a number. *)
Lemma SFmul_finite_not_nan (s : bool) (m : positive) (e : Z)
    (x : spec_float) :
  x <> S754_nan -> SFmul prec emax (S754_finite s m e) x <> S754_nan.
Proof.
  destruct x as [sx|sx| |sx mx ex]; simpl; try discriminate.
  - congruence.
  - intros _. apply binary_round_aux_not_nan; lia.
Qed.

(** Two numbers are ordered: not [a >= b] means [a < b]. *)
Lemma not_geb_ltb (a b : spec_float) :
  F64.is_nan a = false -> F64.is_nan b = false ->
  F64.geb a b = false -> F64.ltb a b = true.
Proof.
  unfold F64.geb, F64.ltb, SFltb.
  destruct a, b; simpl; try discriminate; intros _ _;
    repeat match goal with
           | |- context [if ?s then _ else _] => destruct s
           | |- context [match ?c with Eq => _ | Lt => _ | Gt => _ end] =>
               destruct c
           end; simpl; congruence.
Qed.

End FloatFacts.

Section TableFacts.

Import base spec.

Lemma nth_error_zip_with {A B C} (f : A -> B -> C) xs ys i :
  nth_error (zip_with f xs ys) i =
  match nth_error xs i, nth_error ys i with
  | Some x, Some y => Some (f x y)
  | _, _ => None
  end.
Proof.
  revert ys i; induction xs as [|x xs IH]; intros [|y ys] [|i]; simpl;
    try reflexivity.
  - now destruct (nth_error xs i).
  - apply IH.
Qed.

Lemma length_zip_with {A B C} (f : A -> B -> C) xs ys :
  List.length xs = List.length ys ->
  List.length (zip_with f xs ys) = List.length xs.
Proof.
  revert ys; induction xs as [|x xs IH]; intros [|y ys]; simpl;
    try reflexivity; try discriminate.
  intros [= Hlen]. now rewrite IH.
Qed.

Lemma length_as_float_array xs :
  List.length (as_float_array xs) = List.length xs.
Proof. apply length_map. Qed.

(** What a successful construction returns, column by column. *)
Lemma Parameters_init_ok variables commands initial_values minimums
    maximums sigma0 p :
  Parameters_init variables commands initial_values minimums maximums sigma0
  = Ok p ->
  equal_lengths variables commands initial_values minimums maximums
  /\ ~ inverted_bounds minimums maximums
  /\ index p = variables
  /\ col_command p = commands
  /\ col_value p = as_float_array initial_values
  /\ col_min p = as_float_array minimums
  /\ col_max p = as_float_array maximums
  /\ col_sigma p =
       match sigma0 with
       | Some s => s
       | None =>
           map (F64.mul F64.c0_2)
             (zip_with F64.sub (as_float_array maximums)
                (as_float_array minimums))
       end.
Proof.
  intros Hp.
  destruct (Parameters_init_cases variables commands initial_values
              minimums maximums sigma0) as [[_ Hr]|[Hvalid Hr]];
    simpl in Hr; rewrite Hr in Hp; [discriminate|].
  injection Hp as <-. unfold invalid_input in Hvalid.
  split; [|split; [tauto|now repeat split]].
  destruct (same_lengths variables commands initial_values minimums
              maximums) eqn:Hlen.
  - now apply same_lengths_iff in Hlen.
  - exfalso. apply Hvalid. left. rewrite <- same_lengths_iff. congruence.
Qed.

End TableFacts.

Section ParametersProperties.

Import base spec.

(** C1. [Parameters.__init__] raises, and then raises [ValueError] and
    builds nothing, exactly when the five input sequences do not all have
    one length, or some minimum is greater than or equal to its maximum,
    or some command has no [${varname}] placeholder, or a [sigma0] is
    given whose length is not the number of variables; on every other
    input it returns a table. *)
Theorem Parameters_init_raises_iff variables commands initial_values
    minimums maximums sigma0 :
  let r := Parameters_init variables commands initial_values minimums
             maximums sigma0 in
  (raises r <->
     invalid_input variables commands initial_values minimums maximums
       sigma0)
  /\ (forall e, r = Raise e -> e = ValueError)
  /\ (~ invalid_input variables commands initial_values minimums maximums
        sigma0 ->
      exists p, r = Ok p).
Proof.
  intros r.
  destruct (Parameters_init_cases variables commands initial_values
              minimums maximums sigma0) as [[Hinv Hr]|[Hvalid Hr]];
    fold r in Hr; rewrite Hr.
  - split; [|split].
    + split; [intros _; exact Hinv|intros _; now exists ValueError].
    + now intros e [= <-].
    + intros Hvalid. contradiction.
  - split; [|split].
    + split; [intros (e & He); discriminate He|intros Hinv; contradiction].
    + intros e He. discriminate He.
    + intros _. eexists. reflexivity.
Qed.

Lemma Parameters_init_raises_iff_witness :
  raises (Parameters_init ["corPP"; "corPW"] ["fix m3 ${corPP}"]
            [Some half; Some half] [Some F64.zero; Some F64.zero]
            [Some F64.one; Some F64.one] None)
  /\ (exists p,
        Parameters_init ["corPP"] ["fix m3 ${corPP} ${corPW}"] [Some half]
          [Some F64.zero] [Some F64.one] None = Ok p)
  /\ (exists p,
        Parameters_init ["élan"] ["fix m3 ${élan}"] [Some half]
          [Some F64.zero] [Some F64.one] None = Ok p)
  /\ raises (Parameters_init ["corPP"] ["fix m3 ${}, $corPP, ${©}"]
               [Some half] [Some F64.zero] [Some F64.one] None).
Proof.
  split; [|split; [|split]].
  - apply (Parameters_init_raises_iff ["corPP"; "corPW"]
             ["fix m3 ${corPP}"] [Some half; Some half]
             [Some F64.zero; Some F64.zero] [Some F64.one; Some F64.one]
             None).
    left. unfold equal_lengths. simpl. intros (H & _). discriminate H.
  - apply (Parameters_init_raises_iff ["corPP"]
             ["fix m3 ${corPP} ${corPW}"] [Some half] [Some F64.zero]
             [Some F64.one] None).
    intros [H|[H|[H|(s & H & _)]]].
    + apply H. unfold equal_lengths. simpl. tauto.
    + apply inverted_bounds_iff in H. discriminate H.
    + apply missing_placeholder_iff in H. discriminate H.
    + discriminate H.
  - apply (Parameters_init_raises_iff ["élan"] ["fix m3 ${élan}"]
             [Some half] [Some F64.zero] [Some F64.one] None).
    intros [H|[H|[H|(s & H & _)]]].
    + apply H. unfold equal_lengths. simpl. tauto.
    + apply inverted_bounds_iff in H. discriminate H.
    + apply missing_placeholder_iff in H. discriminate H.
    + discriminate H.
  - apply (Parameters_init_raises_iff ["corPP"]
             ["fix m3 ${}, $corPP, ${©}"] [Some half] [Some F64.zero]
             [Some F64.one] None).
    right; right; left. now apply missing_placeholder_iff.
Defined.

Lemma all_bounded_nth (minimums maximums : list (option float)) (i : nat)
    (a b : option float) :
  all_bounded minimums maximums = true ->
  nth_error minimums i = Some a -> nth_error maximums i = Some b ->
  exists lo hi, a = Some lo /\ b = Some hi /\ F64.ltb lo hi = true.
Proof.
  unfold all_bounded.
  revert maximums i; induction minimums as [|x minimums IH];
    intros [|y maximums] [|i]; simpl; try discriminate.
  - intros Hall [= <-] [= <-]. apply andb_prop in Hall as [Hhead _].
    destruct x as [lo|]; [|discriminate]. destruct y as [hi|]; [|discriminate].
    now exists lo, hi.
  - intros Hall Ha Hb. apply andb_prop in Hall as [_ Hall].
    now apply (IH maximums i).
Qed.

(** C2. When [sigma0] is omitted and every parameter has both bounds with
    [min < max], a successful construction has one sigma per variable, and
    for each variable the table holds the minimum and the maximum that
    were given for it and the sigma [0.2 * (max - min)] of those two. *)
Theorem default_sigma variables commands initial_values minimums maximums
    p :
  Parameters_init variables commands initial_values minimums maximums None
  = Ok p ->
  all_bounded minimums maximums = true ->
  List.length (col_sigma p) = List.length variables
  /\ forall i,
       (i < List.length variables)%nat ->
       exists lo hi,
         nth_error minimums i = Some (Some lo)
         /\ nth_error maximums i = Some (Some hi)
         /\ F64.ltb lo hi = true
         /\ nth_error (col_min p) i = Some lo
         /\ nth_error (col_max p) i = Some hi
         /\ nth_error (col_sigma p) i
            = Some (F64.mul F64.c0_2 (F64.sub hi lo)).
Proof.
  intros Hp Hbounded.
  apply Parameters_init_ok in Hp
    as ((Hvc & Hci & Him & Hmm) & _ & _ & _ & _ & -> & -> & ->).
  split.
  - rewrite length_map, length_zip_with, length_as_float_array;
      [congruence|].
    now rewrite !length_as_float_array.
  - intros i Hi.
    destruct (nth_error minimums i) as [a|] eqn:Ha;
      [|apply nth_error_None in Ha; lia].
    destruct (nth_error maximums i) as [b|] eqn:Hb;
      [|apply nth_error_None in Hb; lia].
    destruct (all_bounded_nth _ _ _ _ _ Hbounded Ha Hb)
      as (lo & hi & -> & -> & Hlt).
    exists lo, hi. do 3 (split; [reflexivity || assumption|]).
    assert (Hmin : nth_error (as_float_array minimums) i = Some lo)
      by (unfold as_float_array; now rewrite nth_error_map, Ha).
    assert (Hmax : nth_error (as_float_array maximums) i = Some hi)
      by (unfold as_float_array; now rewrite nth_error_map, Hb).
    split; [exact Hmin|]. split; [exact Hmax|].
    now rewrite nth_error_map, nth_error_zip_with, Hmin, Hmax.
Qed.

Lemma default_sigma_witness :
  exists p,
    Parameters_init ["corPP"] ["fix m3 ${corPP}"] [Some half]
      [Some F64.zero] [Some examples.two] None = Ok p
    /\ nth_error (col_min p) 0 = Some F64.zero
    /\ nth_error (col_max p) 0 = Some examples.two
    /\ nth_error (col_sigma p) 0 =
         Some (F64.mul F64.c0_2 (F64.sub examples.two F64.zero)).
Proof.
  eexists. split; [reflexivity|].
  destruct (proj2 (default_sigma ["corPP"] ["fix m3 ${corPP}"] [Some half]
                     [Some F64.zero] [Some examples.two] _ eq_refl eq_refl)
              0%nat ltac:(simpl; lia))
    as (lo & hi & Hlo & Hhi & _ & Hmin & Hmax & Hsigma).
  injection Hlo as <-. injection Hhi as <-.
  split; [exact Hmin|]. split; [exact Hmax|exact Hsigma].
Defined.

End ParametersProperties.

Section SigmaInvariant.

Import base spec.

(** C7, as stated, fails: with both bounds absent and no [sigma0] the
    constructor succeeds and the sigma is NaN; with the bounds
    [-max_float < max_float] the default sigma overflows to infinity; and
    a [sigma0] that holds a NaN is stored as given. *)
Lemma sigma_invariant_counterexample :
  Parameters_init ["corPP"] ["fix m3 ${corPP}"] [Some half] [None] [None]
    None
  = Ok {| index := ["corPP"];
          col_command := ["fix m3 ${corPP}"];
          col_value := [half];
          col_min := [F64.nan];
          col_max := [F64.nan];
          col_sigma := [F64.nan] |}
  /\ ~ resolvable [None] [None] None 0
  /\ Parameters_init ["corPP"] ["fix m3 ${corPP}"] [Some half]
       [Some min_float] [Some max_float] None
     = Ok {| index := ["corPP"];
             col_command := ["fix m3 ${corPP}"];
             col_value := [half];
             col_min := [min_float];
             col_max := [max_float];
             col_sigma := [S754_infinity false] |}
  /\ Parameters_init ["corPP"] ["fix m3 ${corPP}"] [Some half]
       [Some F64.zero] [Some F64.one] (Some [F64.nan])
     = Ok {| index := ["corPP"];
             col_command := ["fix m3 ${corPP}"];
             col_value := [half];
             col_min := [F64.zero];
             col_max := [F64.one];
             col_sigma := [F64.nan] |}
  /\ ~ (forall variables commands initial_values minimums maximums sigma0 p,
          Parameters_init variables commands initial_values minimums
            maximums sigma0 = Ok p ->
          (forall i, (i < List.length variables)%nat ->
                     resolvable minimums maximums sigma0 i)
          /\ sigma_well_defined p).
Proof.
  assert (Hnone : ~ resolvable [None] [None] None 0).
  { intros [(lo & hi & H & _)|H]; [discriminate H|now apply H]. }
  split; [vm_compute; reflexivity|].
  split; [exact Hnone|].
  split; [vm_compute; reflexivity|].
  split; [vm_compute; reflexivity|].
  intros Hclaim.
  destruct (Hclaim ["corPP"] ["fix m3 ${corPP}"] [Some half] [None] [None]
              None _ eq_refl) as [_ Hsigma].
  discriminate Hsigma.
Qed.

(** C7, amended.  In every table the constructor returns, a parameter whose
    two bounds are numbers has [min < max]; a [sigma0] that was given is the
    sigma column as it stands; and when [sigma0] is omitted, the sigma of a
    parameter whose two bounds are numbers is [0.2 * (max - min)], which is
    not NaN. *)
Theorem constructed_bounds_and_sigma variables commands initial_values
    minimums maximums sigma0 p :
  Parameters_init variables commands initial_values minimums maximums sigma0
  = Ok p ->
  (forall s, sigma0 = Some s -> col_sigma p = s)
  /\ forall i lo hi,
       nth_error (col_min p) i = Some lo ->
       nth_error (col_max p) i = Some hi ->
       F64.is_nan lo = false -> F64.is_nan hi = false ->
       F64.ltb lo hi = true
       /\ (sigma0 = None ->
           nth_error (col_sigma p) i
             = Some (F64.mul F64.c0_2 (F64.sub hi lo))
           /\ F64.is_nan (F64.mul F64.c0_2 (F64.sub hi lo)) = false).
Proof.
  intros Hp.
  apply Parameters_init_ok in Hp
    as (_ & Hninv & _ & _ & _ & Hmin & Hmax & Hsigma).
  split.
  { intros s ->. exact Hsigma. }
  intros i lo hi Hlo Hhi Hnlo Hnhi.
  assert (Hlt : F64.ltb lo hi = true).
  { apply not_geb_ltb; try assumption.
    destruct (F64.geb lo hi) eqn:Hge; [|reflexivity].
    exfalso. apply Hninv. apply inverted_bounds_iff.
    rewrite <- Hmin, <- Hmax. clear - Hlo Hhi Hge.
    revert i Hlo Hhi.
    generalize (col_min p) (col_max p).
    intros los; induction los as [|a los IH]; intros [|b his] [|i];
      simpl; try discriminate.
    - intros [= ->] [= ->]. now rewrite Hge.
    - intros Ha Hb. rewrite (IH _ _ Ha Hb). apply orb_true_r. }
  split; [exact Hlt|].
  intros ->. rewrite Hsigma, <- Hmin, <- Hmax.
  rewrite nth_error_map, nth_error_zip_with, Hlo, Hhi.
  split; [reflexivity|].
  pose proof (SFmul_finite_not_nan F64.prec F64.emax false
                7205759403792794 (-55) _
                (SFsub_not_nan F64.prec F64.emax lo hi Hlt)) as Hnan.
  unfold F64.mul, F64.sub, F64.c0_2.
  destruct (SFmul F64.prec F64.emax _ _); try reflexivity.
  now contradiction Hnan.
Qed.

Lemma constructed_bounds_and_sigma_witness :
  F64.ltb F64.zero F64.one = true
  /\ F64.is_nan (F64.mul F64.c0_2 (F64.sub F64.one F64.zero)) = false.
Proof.
  destruct (proj2 (constructed_bounds_and_sigma ["corPP"]
                     ["fix m3 ${corPP}"] [Some half] [Some F64.zero]
                     [Some F64.one] None _ eq_refl)
              0%nat F64.zero F64.one eq_refl eq_refl eq_refl eq_refl)
    as [Hlt Hsigma].
  split; [exact Hlt|].
  exact (proj2 (Hsigma eq_refl)).
Defined.

End SigmaInvariant.

(* ===================================================================== *)
(** * Simulation                                                          *)
(* ===================================================================== *)

Section SimulationProperties.

Import base.
Context {E : Type} `{Liggghts E} `{FloatStr}.

(** C8. For a simulation and an existing parameter name [key], the
    assignment [simulation[key] = value] leaves the index and the command,
    min, max and sigma columns of the parameter table as they were, and
    leaves the value of every row labelled otherwise as it was; when the
    assignment returns, the value of the rows labelled [key] is [value]. *)
Theorem setitem_frame (self : Simulation E) (key : string) (value : float) :
  in_index (parameters self) key = true ->
  let before := parameters self in
  let after := parameters (fst (setitem self key value)) in
  index after = index before
  /\ col_command after = col_command before
  /\ col_min after = col_min before
  /\ col_max after = col_max before
  /\ col_sigma after = col_sigma before
  /\ (forall i name,
        nth_error (index before) i = Some name -> name <> key ->
        nth_error (col_value after) i = nth_error (col_value before) i)
  /\ (snd (setitem self key value) = Ok tt ->
      forall i old,
        nth_error (index before) i = Some key ->
        nth_error (col_value before) i = Some old ->
        nth_error (col_value after) i = Some value).
Proof.
  intros Hkey before after. subst after. unfold setitem.
  rewrite Hkey; simpl.
  destruct (loc_command (parameters self) key) as [template|e]; simpl.
  - do 5 (split; [reflexivity|]).
    fold before. split.
    + intros i name Hname Hne.
      rewrite nth_error_zip_with, Hname.
      destruct (String.eqb_spec name key); [contradiction|].
      now destruct (nth_error (col_value before) i).
    + intros _ i old Hname Hold.
      rewrite nth_error_zip_with, Hname, Hold.
      now rewrite String.eqb_refl.
  - do 6 (split; [reflexivity|]).
    intros Hret; discriminate Hret.
Qed.

Lemma set_each_verbose (self self' : Simulation E) (labels : list string)
    (r : result unit) :
  set_each self labels = (self', r) -> _verbose self' = _verbose self.
Proof.
  revert self; induction labels as [|idx labels IH]; intros self; simpl.
  - now intros [= <- _].
  - destruct (setitem self idx _) as [self1 [u|e]] eqn:Hset.
    + intros Hrest. rewrite (IH _ Hrest).
      unfold setitem in Hset.
      destruct (negb _); [now injection Hset as <- _|].
      destruct (loc_command _ _); now injection Hset as <- _.
    + intros [= <- _]. unfold setitem in Hset.
      destruct (negb _); [now injection Hset as <- _|].
      destruct (loc_command _ _); now injection Hset as <- _.
Qed.

(** C9. Reading [verbose] gives [None] on every instance, whatever flag
    the instance holds: the one the constructor stored from its [verbose]
    argument, or one assigned through the setter; so [step] takes its
    second branch and sends [run <n> post no]. *)
Theorem verbose_is_None (self : Simulation E) (flag num_steps : pyval) :
  verbose self = PyNone
  /\ verbose (set_verbose self flag) = PyNone
  /\ step self num_steps
     = with_engine self
         (command (simulation self)
            ("run " ++ py_str num_steps ++ " post no"))
  /\ step (set_verbose self flag) num_steps
     = with_engine (set_verbose self flag)
         (command (simulation self)
            ("run " ++ py_str num_steps ++ " post no"))
  /\ forall readable script table built,
       Simulation_init readable script table flag = Ok built ->
       _verbose built = truthy flag
       /\ verbose built = PyNone
       /\ step built num_steps
          = with_engine built
              (command (simulation built)
                 ("run " ++ py_str num_steps ++ " post no")).
Proof.
  do 4 (split; [reflexivity|]).
  intros readable script table built Hinit.
  split; [|split; reflexivity].
  unfold Simulation_init in Hinit.
  destruct (negb (readable script)); [discriminate Hinit|].
  destruct (set_each _ (index table)) as [self' [u|e]] eqn:Hloop;
    [|discriminate Hinit].
  injection Hinit as <-. now rewrite (set_each_verbose _ _ _ _ Hloop).
Qed.

(** C10. Assigning a step size that is not strictly between 0 and 1 raises
    [ValueError] and leaves the instance, its step size and its engine as
    they were; assigning one strictly between 0 and 1 stores it and sends
    the [timestep] command to the engine. *)
Theorem set_step_size_spec (self : Simulation E) (new_step_size : float) :
  (~ (F64.ltb F64.zero new_step_size = true
      /\ F64.ltb new_step_size F64.one = true) ->
   set_step_size self new_step_size = (self, Raise ValueError))
  /\ (F64.ltb F64.zero new_step_size = true ->
      F64.ltb new_step_size F64.one = true ->
      exists self',
        set_step_size self new_step_size = (self', Ok tt)
        /\ step_size self' = new_step_size
        /\ simulation self'
           = command (simulation self)
               ("timestep " ++ float_str new_step_size)
        /\ parameters self' = parameters self
        /\ filename self' = filename self
        /\ _verbose self' = _verbose self).
Proof.
  unfold set_step_size. split.
  - intros Hout.
    destruct (F64.ltb F64.zero new_step_size);
      destruct (F64.ltb new_step_size F64.one); simpl; try reflexivity.
    exfalso. now apply Hout.
  - intros -> ->. simpl. eexists. split; [reflexivity|]. now repeat split.
Qed.

End SimulationProperties.

Lemma setitem_frame_witness :
  let after :=
    base.parameters
      (fst (@base.setitem _ examples.recording_engine
              examples.example_float_str examples.example_simulation
              "corPP" examples.three_quarters)) in
  base.col_sigma after = base.col_sigma examples.example_parameters
  /\ nth_error (base.col_value after) 1 = Some spec.half
  /\ nth_error (base.col_value after) 0 = Some examples.three_quarters.
Proof.
  destruct (@setitem_frame _ examples.recording_engine
              examples.example_float_str examples.example_simulation
              "corPP" examples.three_quarters eq_refl)
    as (_ & _ & _ & _ & Hsigma & Hothers & Hkey).
  split; [exact Hsigma|]. split.
  - apply (Hothers 1%nat "corPW" eq_refl). discriminate.
  - apply (Hkey eq_refl 0%nat spec.half eq_refl eq_refl).
Defined.

Lemma verbose_is_None_witness :
  exists built,
    @base.Simulation_init _ examples.recording_engine
      examples.example_float_str (fun _ => true) "run.sim"
      examples.example_parameters (PyBool true) = Ok built
    /\ base._verbose built = true
    /\ base.verbose built = PyNone
    /\ base.simulation
         (@base.step _ examples.recording_engine examples.example_float_str
            built (PyInt 200))
       = "run 200 post no" :: base.simulation built.
Proof.
  eexists. split; [reflexivity|].
  destruct (@verbose_is_None _ examples.recording_engine
              examples.example_float_str examples.example_simulation
              (PyBool true) (PyInt 200)) as (_ & _ & _ & _ & Hinit).
  destruct (Hinit (fun _ => true) "run.sim" examples.example_parameters
              _ eq_refl) as (Hflag & Hget & Hstep).
  split; [exact Hflag|]. split; [exact Hget|].
  rewrite Hstep. reflexivity.
Defined.

Lemma set_step_size_spec_witness :
  @base.set_step_size _ examples.recording_engine examples.example_float_str
    examples.example_simulation examples.two
  = (examples.example_simulation, Raise ValueError)
  /\ exists self',
       @base.set_step_size _ examples.recording_engine
         examples.example_float_str examples.example_simulation spec.half
       = (self', Ok tt)
       /\ base.step_size self' = spec.half
       /\ base.simulation self' = ["timestep 0.5"].
Proof.
  destruct (@set_step_size_spec _ examples.recording_engine
              examples.example_float_str examples.example_simulation
              examples.two) as [Hout _].
  destruct (@set_step_size_spec _ examples.recording_engine
              examples.example_float_str examples.example_simulation
              spec.half) as [_ Hin].
  split.
  - apply Hout. intros [_ Hlt]. discriminate Hlt.
  - destruct (Hin eq_refl eq_refl) as (self' & Hset & Hstep & Hsim & _).
    exists self'. split; [exact Hset|]. split; [exact Hstep|exact Hsim].
Defined.

(* ===================================================================== *)
(** * Strings: splitting a history path                                   *)
(* ===================================================================== *)

Section SplitFacts.

Import Re utilities persistence spec.

Lemma append_eq_nil (a b : string) : a ++ b = "" -> a = "" /\ b = "".
Proof. destruct a; simpl; [tauto|discriminate]. Qed.

Lemma split_go_skip (seps : list string) (a rest cur : string) :
  rest <> "" ->
  split_go seps (String.length a) cur (a ++ rest) = split_go seps 0 cur rest.
Proof.
  intros Hrest. induction a as [|c a IH]; simpl; [reflexivity|exact IH].
Qed.

Lemma no_match_inside_tail seps c pfx rest :
  no_match_inside seps (String c pfx) rest -> no_match_inside seps pfx rest.
Proof.
  intros Hno a b -> Hb. now apply (Hno (String c a) b).
Qed.

(** Characters before the first match join the current field. *)
Lemma split_go_prefix seps pfx rest cur :
  no_match_inside seps pfx rest ->
  split_go seps 0 cur (pfx ++ rest) = split_go seps 0 (cur ++ pfx) rest.
Proof.
  revert cur; induction pfx as [|c pfx IH]; intros cur Hno; simpl.
  - now rewrite append_nil_r.
  - pose proof (Hno "" (String c pfx) eq_refl) as Hhead.
    simpl in Hhead. rewrite Hhead by discriminate.
    rewrite IH by (eapply no_match_inside_tail; eassumption).
    now rewrite append_assoc.
Qed.

Lemma before_first_prefix sep pfx rest :
  no_match_inside [sep] pfx rest ->
  before_first sep (pfx ++ rest) = pfx ++ before_first sep rest.
Proof.
  induction pfx as [|c pfx IH]; intros Hno; simpl; [reflexivity|].
  pose proof (Hno "" (String c pfx) eq_refl) as Hhead.
  simpl in Hhead.
  destruct (strip_prefix sep (String c (pfx ++ rest))) eqn:Hs.
  - specialize (Hhead ltac:(discriminate)). discriminate Hhead.
  - f_equal. apply IH. eapply no_match_inside_tail; eassumption.
Qed.

Lemma no_match_inside_weaken seps sep pfx rest :
  In sep seps -> no_match_inside seps pfx rest ->
  no_match_inside [sep] pfx rest.
Proof.
  intros Hin Hno a b Hab Hb. specialize (Hno a b Hab Hb).
  simpl. destruct (strip_prefix sep (b ++ rest)) eqn:Hs; [|reflexivity].
  exfalso. clear - Hin Hno Hs.
  induction seps as [|sep' seps IH]; [contradiction|].
  simpl in Hno. destruct Hin as [->|Hin].
  - now rewrite Hs in Hno.
  - destruct (strip_prefix sep' (b ++ rest)); [discriminate|]. now apply IH.
Qed.

(** A separator of the reader starts with [o] or with a dot. *)
Lemma separators_head (c : ascii) (s : string) :
  Ascii.eqb "o" c = false -> Ascii.eqb "." c = false ->
  match_any separators (String c s) = None.
Proof.
  intros Ho Hdot. unfold separators.
  cbn [match_any strip_prefix]. now rewrite Ho, Hdot.
Qed.

Lemma digit_not_separator_head (c : ascii) :
  is_digit c = true -> Ascii.eqb "o" c = false /\ Ascii.eqb "." c = false.
Proof.
  intros Hd. split.
  - destruct (Ascii.eqb_spec "o" c) as [<-|]; [discriminate Hd|reflexivity].
  - destruct (Ascii.eqb_spec "." c) as [<-|]; [discriminate Hd|reflexivity].
Qed.

(** No match starts inside text whose characters start no separator. *)
Lemma class_no_match (seps : list string) (p : ascii -> bool)
    (pfx rest : string) :
  (forall c s, p c = true -> match_any seps (String c s) = None) ->
  all_chars p pfx = true -> no_match_inside seps pfx rest.
Proof.
  intros Hp Hpfx a b -> Hb.
  assert (Hb' : all_chars p b = true).
  { clear Hb. induction a as [|c a IH]; simpl in Hpfx; [assumption|].
    apply andb_prop in Hpfx as [_ Hpfx]. now apply IH. }
  destruct b as [|c b]; [congruence|].
  simpl in Hb'. apply andb_prop in Hb' as [Hc _].
  now apply Hp.
Qed.

Lemma digits_no_match (ds rest : string) :
  all_chars is_digit ds = true -> no_match_inside separators ds rest.
Proof.
  apply class_no_match. intros c s Hc.
  destruct (digit_not_separator_head c Hc).
  now apply separators_head.
Qed.

End SplitFacts.

(* ===================================================================== *)
(** * Integers and their decimal text                                     *)
(* ===================================================================== *)

Section IntFacts.

Import Re utilities.

Lemma string_of_uint_digits (d : Decimal.uint) :
  all_chars is_digit (NilEmpty.string_of_uint d) = true.
Proof. induction d; simpl; try rewrite IHd; reflexivity. Qed.

Lemma digit_not_space (c : ascii) : is_digit c = true -> is_space c = false.
Proof.
  destruct c as [[] [] [] [] [] [] [] []]; try discriminate; reflexivity.
Qed.

Lemma digit_byte (c : ascii) :
  is_digit c = true -> (N_of_ascii c <? 127)%N = true.
Proof.
  destruct c as [[] [] [] [] [] [] [] []]; try discriminate; reflexivity.
Qed.

(** Decimal text in ASCII is parsed as it stands. *)
Lemma to_ascii_digits_digits (s : string) :
  all_chars is_digit s = true -> to_ascii_digits 0 s = s.
Proof.
  induction s as [|c s IH]; [reflexivity|].
  intros Hs. simpl in Hs. apply andb_prop in Hs as [Hc Hs].
  pose proof (digit_byte c Hc) as Hbyte.
  cbn [to_ascii_digits utf8_head].
  assert (H128 : (N_of_ascii c <? 128)%N = true).
  { apply N.ltb_lt. apply N.ltb_lt in Hbyte. lia. }
  rewrite H128, Hbyte. cbn [Nat.sub]. now rewrite (IH Hs).
Qed.

Lemma digit_not_char (c x : ascii) :
  is_digit c = true -> is_digit x = false -> Ascii.eqb c x = false.
Proof.
  intros Hc Hx. destruct (Ascii.eqb_spec c x) as [->|]; congruence.
Qed.

Lemma lstrip_digits (s : string) :
  all_chars is_digit s = true -> lstrip s = s.
Proof.
  destruct s as [|c s]; simpl; [reflexivity|].
  intros Hs. apply andb_prop in Hs as [Hc _].
  now rewrite (digit_not_space c Hc).
Qed.

Lemma rstrip_digits (s : string) :
  all_chars is_digit s = true -> rstrip s = s.
Proof.
  induction s as [|c s IH]; simpl; [reflexivity|].
  intros Hs. apply andb_prop in Hs as [Hc Hs].
  rewrite (IH Hs), (digit_not_space c Hc). now destruct s.
Qed.

Lemma literal_digits_digits (s : string) :
  all_chars is_digit s = true -> literal_digits s true = Some s.
Proof.
  induction s as [|c s IH]; simpl; [reflexivity|].
  intros Hs. apply andb_prop in Hs as [Hc Hs].
  now rewrite Hc, (IH Hs).
Qed.

Lemma unsigned_literal_digits (d : Decimal.uint) :
  d <> Decimal.Nil ->
  unsigned_literal (NilEmpty.string_of_uint d) = Some (Z.of_uint d).
Proof.
  intros Hd. unfold unsigned_literal.
  pose proof (string_of_uint_digits d) as Hds.
  destruct (NilEmpty.string_of_uint d) as [|c s] eqn:Hstr.
  { destruct d; simpl in Hstr; congruence. }
  simpl in Hds. apply andb_prop in Hds as [Hc Hs].
  cbn [literal_digits]. rewrite Hc, (literal_digits_digits s Hs).
  rewrite <- Hstr, NilEmpty.usu. reflexivity.
Qed.

(** The decimal text of a natural number, and what it denotes. *)
Lemma str_int_nonneg (n : Z) :
  (0 <= n)%Z ->
  exists d,
    d <> Decimal.Nil
    /\ str_int n = NilEmpty.string_of_uint d
    /\ Z.of_uint d = n.
Proof.
  intros Hn. unfold str_int.
  pose proof (DecimalZ.of_to n) as Hof.
  destruct n as [|p|p]; [| |lia].
  - exists (Decimal.D0 Decimal.Nil). now repeat split.
  - exists (Pos.to_uint p). split; [apply DecimalPos.Unsigned.to_uint_nonnil|].
    split; [|exact Hof].
    simpl. unfold NilZero.string_of_uint.
    pose proof (DecimalPos.Unsigned.to_uint_nonnil p).
    now destruct (Pos.to_uint p).
Qed.

Lemma str_int_digits (n : Z) :
  (0 <= n)%Z -> all_chars is_digit (str_int n) = true /\ str_int n <> "".
Proof.
  intros Hn. destruct (str_int_nonneg n Hn) as (d & Hd & -> & _).
  split; [apply string_of_uint_digits|].
  destruct d; simpl; congruence.
Qed.

(** [int(str(n)) == n] *)
Lemma py_int_str_int (n : Z) : (0 <= n)%Z -> py_int (str_int n) = Ok n.
Proof.
  intros Hn. destruct (str_int_digits n Hn) as [Hds Hne].
  destruct (str_int_nonneg n Hn) as (d & Hd & Hstr & Hval).
  unfold py_int.
  rewrite (to_ascii_digits_digits _ Hds).
  rewrite (lstrip_digits _ Hds), (rstrip_digits _ Hds).
  destruct (str_int n) as [|c s] eqn:Hs; [congruence|].
  simpl in Hds. apply andb_prop in Hds as [Hc _].
  rewrite (digit_not_char c "-" Hc eq_refl), (digit_not_char c "+" Hc eq_refl).
  rewrite Hstr, (unsigned_literal_digits d Hd), Hval. reflexivity.
Qed.

End IntFacts.

(* ===================================================================== *)
(** * Paths                                                               *)
(* ===================================================================== *)

Section PathFacts.

Import Re utilities persistence spec.

Lemma search_false_inv {X} (m : string -> option X) (a b : string) :
  search m (a ++ b) = false -> m b = None.
Proof.
  destruct (m b) as [x|] eqn:Hm; [|reflexivity].
  now rewrite (search_app m a b x Hm).
Qed.

Lemma strip_prefix_extend (sep a r x : string) :
  strip_prefix sep a = Some r -> strip_prefix sep (a ++ x) = Some (r ++ x).
Proof.
  intros Hs. apply strip_prefix_inv in Hs as ->.
  now rewrite append_assoc, strip_prefix_app.
Qed.

(** A separator without a slash that matches across a slash has matched
    before it. *)
Lemma strip_prefix_slash (sep a b r : string) :
  all_chars (fun c => negb (Ascii.eqb c "/")) sep = true ->
  strip_prefix sep (a ++ String "/" b) = Some r ->
  exists r', strip_prefix sep a = Some r'.
Proof.
  revert a; induction sep as [|c sep IH]; intros a Hsep; simpl.
  - intros _. now exists a.
  - simpl in Hsep. apply andb_prop in Hsep as [Hc Hsep].
    destruct a as [|x a]; simpl.
    + destruct (Ascii.eqb_spec c "/") as [->|]; [discriminate Hc|].
      discriminate.
    + destruct (Ascii.eqb c x); [|discriminate]. now apply IH.
Qed.

Lemma last_char_snoc (s : string) (c : ascii) :
  last_char s = Some c -> exists s', s = s' ++ String c "".
Proof.
  induction s as [|x s IH]; simpl; [discriminate|].
  destruct s as [|y s].
  - intros [= ->]. now exists "".
  - intros Hl. destruct (IH Hl) as (s' & Hs').
    exists (String x s'). simpl. now rewrite <- Hs'.
Qed.

Lemma suffix_of_snoc (a b d : string) (c : ascii) :
  a ++ b = d ++ String c "" -> b <> "" ->
  exists b', b = b' ++ String c "" /\ d = a ++ b'.
Proof.
  revert d; induction a as [|x a IH]; intros d; simpl.
  - intros -> _. now exists d.
  - destruct d as [|y d]; simpl.
    + intros Heq Hb. injection Heq as _ Hab.
      apply append_eq_nil in Hab as [_ Hab]. contradiction.
    + intros Heq Hb. injection Heq as <- Hab.
      destruct (IH d Hab Hb) as (b' & -> & ->). now exists b'.
Qed.

Lemma match_any_separators_none (s : string) :
  strip_prefix "opt_history_" s = None -> strip_prefix ".csv" s = None ->
  match_any separators s = None.
Proof.
  intros H1 H2. unfold separators. cbn [match_any]. now rewrite H1, H2.
Qed.

Lemma separator_free_suffix (a b : string) :
  separator_free (a ++ b) = true ->
  strip_prefix "opt_history_" b = None /\ strip_prefix ".csv" b = None.
Proof.
  unfold separator_free. intros Hfree.
  apply andb_prop in Hfree as [H1 H2].
  apply negb_true_iff in H1, H2.
  split; eapply search_false_inv; eassumption.
Qed.

(** No separator matches at a position of the directory part of a joined
    path, if none occurs in the directory's path. *)
Lemma separator_free_prefix (dir rest : string) :
  separator_free dir = true ->
  no_match_inside separators (dir_prefix dir) rest.
Proof.
  intros Hfree a b Hab Hb.
  assert (Hshape : exists b' tail,
             b = b' ++ String "/" "" /\ dir = a ++ b' ++ tail).
  { unfold dir_prefix in Hab. destruct (last_char dir) as [c|] eqn:Hlast.
    - destruct (Ascii.eqb_spec c "/") as [->|Hc].
      + destruct (last_char_snoc _ _ Hlast) as (d & Hd).
        rewrite Hd in Hab. symmetry in Hab.
        destruct (suffix_of_snoc _ _ _ _ Hab Hb) as (b' & -> & Hd').
        exists b', (String "/" "").
        split; [reflexivity|]. rewrite Hd, Hd'. now rewrite append_assoc.
      + symmetry in Hab.
        destruct (suffix_of_snoc _ _ _ _ Hab Hb) as (b' & -> & ->).
        exists b', "". now rewrite append_nil_r.
    - symmetry in Hab. apply append_eq_nil in Hab as [_ ->]. congruence. }
  destruct Hshape as (b' & tail & -> & ->).
  apply separator_free_suffix in Hfree as [H1 H2].
  rewrite append_assoc. simpl.
  apply match_any_separators_none.
  - destruct (strip_prefix "opt_history_" (b' ++ String "/" rest)) eqn:Hs;
      [|reflexivity].
    apply strip_prefix_slash in Hs as (r' & Hr'); [|reflexivity].
    now rewrite (strip_prefix_extend _ _ _ tail Hr') in H1.
  - destruct (strip_prefix ".csv" (b' ++ String "/" rest)) eqn:Hs;
      [|reflexivity].
    apply strip_prefix_slash in Hs as (r' & Hr'); [|reflexivity].
    now rewrite (strip_prefix_extend _ _ _ tail Hr') in H2.
Qed.

Lemma join_relative (dir f : string) :
  startswith f "/" = false -> join dir f = dir_prefix dir ++ f.
Proof.
  intros Hf. unfold join, dir_prefix. rewrite Hf.
  destruct (last_char dir) as [c|]; [|reflexivity].
  destruct (Ascii.eqb c "/"); [reflexivity|].
  now rewrite append_assoc.
Qed.

Lemma join_history_name (dir : string) (n : Z) :
  join dir (history_name n)
  = dir_prefix dir ++ "opt_history_" ++ str_int n ++ ".csv".
Proof. now apply join_relative. Qed.

Lemma join_history_scaled_name (dir : string) (n : Z) :
  join dir (history_scaled_name n)
  = dir_prefix dir ++ "opt_history_" ++ str_int n ++ "_scaled.csv".
Proof. now apply join_relative. Qed.

(** At a separator the current field ends, and the separator is passed. *)
Lemma split_go_separator (seps : list string) (c : ascii)
    (sep rest cur : string) :
  match_any seps (String c sep ++ rest) = Some (String c sep) ->
  rest <> "" ->
  split_go seps 0 cur (String c sep ++ rest)
  = cur :: split_go seps 0 "" rest.
Proof.
  intros Hm Hrest. simpl append in *. cbn [split_go]. rewrite Hm.
  cbn [String.length]. rewrite Nat.sub_succ, Nat.sub_0_r.
  now rewrite split_go_skip.
Qed.

(** The second field of the split history path is the population size as
    the file name spells it. *)
Lemma population_field_history (dir : string) (n : Z) :
  separator_free dir = true -> (0 <= n)%Z ->
  population_field (join dir (history_name n)) = Ok (str_int n).
Proof.
  intros Hfree Hn. destruct (str_int_digits n Hn) as [Hds Hne].
  unfold population_field, split. rewrite join_history_name.
  rewrite split_go_prefix by now apply separator_free_prefix.
  remember (str_int n) as ds eqn:Eds. clear Eds.
  rewrite split_go_separator.
  - cbn [nth_error]. rewrite split_go_prefix by now apply digits_no_match.
    reflexivity.
  - unfold separators. cbn [match_any].
    now rewrite strip_prefix_app.
  - destruct ds; [congruence|discriminate].
Qed.

(** [history_path.split(".csv")[0] + "_scaled.csv"] names the scaled
    table. *)
Lemma scaled_path_history (dir : string) (n : Z) :
  separator_free dir = true -> (0 <= n)%Z ->
  before_first ".csv" (join dir (history_name n)) ++ "_scaled.csv"
  = join dir (history_scaled_name n).
Proof.
  intros Hfree Hn. destruct (str_int_digits n Hn) as [Hds _].
  rewrite join_history_name, join_history_scaled_name.
  assert (Hin : In ".csv" separators) by (right; now left).
  rewrite before_first_prefix
    by (eapply no_match_inside_weaken;
        [exact Hin|now apply separator_free_prefix]).
  change ("opt_history_" ++ str_int n ++ ".csv")
    with ("opt_history_" ++ (str_int n ++ ".csv")).
  rewrite (before_first_prefix ".csv" "opt_history_").
  - rewrite before_first_prefix
      by (eapply no_match_inside_weaken;
          [exact Hin|now apply digits_no_match]).
    simpl. rewrite append_nil_r. now rewrite !append_assoc.
  - apply (class_no_match _ (fun c => negb (Ascii.eqb "." c)));
      [|reflexivity].
    intros c s Hc. apply negb_true_iff in Hc.
    cbn [match_any strip_prefix]. now rewrite Hc.
Qed.

(** The field under construction only prefixes the first field. *)
Lemma split_go_cur (seps : list string) (k : nat) (cur s : string) :
  split_go seps k cur s
  = match split_go seps k "" s with
    | first :: fields => (cur ++ first) :: fields
    | [] => []
    end.
Proof.
  revert k cur; induction s as [|c s IH]; intros k cur; cbn [split_go].
  - now rewrite append_nil_r.
  - destruct k as [|k]; [|apply IH].
    destruct (match_any seps (String c s)) as [sep|].
    + now rewrite append_nil_r.
    + rewrite (IH 0%nat (cur ++ String c "")), (IH 0%nat ("" ++ String c "")).
      destruct (split_go seps 0 "" s) as [|first fields]; [reflexivity|].
      now rewrite append_assoc.
Qed.

(** Under a directory free of separators, the population field of the
    joined path is the population field of the file name. *)
Lemma population_field_join (dir f : string) :
  separator_free dir = true ->
  population_field (join dir f) = population_field f.
Proof.
  intros Hfree. destruct (startswith f "/") eqn:Hf.
  - unfold join. now rewrite Hf.
  - rewrite (join_relative dir f Hf). unfold population_field, split.
    rewrite split_go_prefix by now apply separator_free_prefix.
    rewrite split_go_cur.
    now destruct (split_go _ 0 "" f).
Qed.

End PathFacts.

(* ===================================================================== *)
(** * The run reader                                                      *)
(* ===================================================================== *)

Lemma bind_ok_inv {A B} (r : result A) (k : A -> result B) (b : B) :
  bind r k = Ok b -> exists a, r = Ok a /\ k a = Ok b.
Proof. destruct r as [a|e]; simpl; [now exists a|discriminate]. Qed.

(** From [H : (x <- r ;; k) = Ok b], name the value [x] of [r], keep
    [Hx : r = Ok x] and leave the continuation in [H]. *)
Tactic Notation "bind_inv" hyp(H) "as" ident(x) ident(Hx) :=
  apply bind_ok_inv in H as (x & Hx & H).

Section ReaderFacts.

Import Re base utilities persistence spec.

(** The loop over a listing in two parts. *)
Lemma scan_entries_app dir before after bound :
  scan_entries dir (before ++ after)%list bound
  = (b <- scan_entries dir before bound ;; scan_entries dir after b).
Proof.
  revert bound; induction before as [|f before IH]; intros bound; simpl;
    [reflexivity|].
  destruct (search match_history f); [|apply IH].
  destruct (population_field (join dir f)) as [field|e]; simpl;
    [|reflexivity].
  destruct (py_int field) as [n|e]; simpl; [apply IH|reflexivity].
Qed.

Lemma scan_entries_none dir entries bound :
  filter (search match_history) entries = [] ->
  scan_entries dir entries bound = Ok bound.
Proof.
  revert bound; induction entries as [|f entries IH]; intros bound; simpl;
    [reflexivity|].
  destruct (search match_history f); [discriminate|]. apply IH.
Qed.

(** With one history file among the entries, the loop binds its names. *)
Lemma scan_entries_single dir entries bound h field n :
  filter (search match_history) entries = [h] ->
  population_field (join dir h) = Ok field ->
  py_int field = Ok n ->
  scan_entries dir entries bound
  = Ok (Some (join dir h,
              before_first ".csv" (join dir h) ++ "_scaled.csv", n)).
Proof.
  intros Hfilter Hfield Hint.
  revert bound Hfilter; induction entries as [|f entries IH];
    intros bound; simpl; [discriminate|].
  destruct (search match_history f).
  - intros [= -> Hrest]. rewrite Hfield; simpl. rewrite Hint; simpl.
    now apply scan_entries_none.
  - apply IH.
Qed.

(** What the loop has bound comes from a matching entry. *)
Lemma scan_entries_inv dir entries bound hp sp n :
  scan_entries dir entries bound = Ok (Some (hp, sp, n)) ->
  bound = Some (hp, sp, n)
  \/ exists f field,
       In f entries
       /\ search match_history f = true
       /\ hp = join dir f
       /\ population_field (join dir f) = Ok field
       /\ py_int field = Ok n.
Proof.
  revert bound; induction entries as [|f entries IH]; intros bound; simpl.
  - intros [= ->]. now left.
  - destruct (search match_history f) eqn:Hf.
    + intros Hscan.
      bind_inv Hscan as field Hfield.
      bind_inv Hscan as m Hint.
      destruct (IH _ Hscan) as [[= <- _ <-]|(f' & field' & Hin & H')].
      * right. exists f, field. now repeat split; try left.
      * right. exists f', field'. split; [now right|exact H'].
    + intros Hscan. destruct (IH _ Hscan) as [Hb|(f' & field' & Hin & H')].
      * now left.
      * right. exists f', field'. split; [now right|exact H'].
Qed.

(** Reading a run directory, once the path is resolved to it. *)
Lemma read_run_directory fs path dir n info table table_scaled :
  find_access_path fs path = Ok dir ->
  run_directory fs dir n info table table_scaled ->
  read fs path = Ok (view n info table table_scaled).
Proof.
  intros Hfind [(entries & Hlist & Hfilter) Hn Hinfo Hh Hhs Hfree].
  unfold read. rewrite Hfind; simpl. rewrite Hlist; simpl.
  rewrite (scan_entries_single dir entries None (history_name n)
             (str_int n) n Hfilter
             (population_field_history dir n Hfree ltac:(lia))
             (py_int_str_int n ltac:(lia))); simpl.
  rewrite Hinfo; simpl.
  rewrite (scaled_path_history dir n Hfree ltac:(lia)).
  rewrite Hh, Hhs; simpl.
  assert (Hcols : List.length (results_columns (info_parameters info))
                  = (2 * List.length (index (info_parameters info)) + 2)%nat).
  { unfold results_columns. rewrite !length_app, length_map. simpl. lia. }
  unfold DataFrame_new. rewrite Hcols, Nat.eqb_refl; simpl.
  unfold floordiv. destruct (Z.eqb_spec n 0) as [->|_]; [lia|].
  reflexivity.
Qed.

End ReaderFacts.

Section ReaderProperties.

Import Re base utilities persistence spec.



End ReaderProperties.

(* ===================================================================== *)
(** * Reading back what a run has written                                 *)
(* ===================================================================== *)

Section RoundTrip.

Import Re base utilities persistence spec.













End RoundTrip.

Section RoundTripProperty.

Import Re base utilities persistence spec.











End RoundTripProperty.

Section ReaderEntryPoints.

Import Re base utilities persistence spec examples layouts.




(** C5 (what the code does).  [AccessData] is an [attr.s] class of seven
    required attributes with no constructor of its own: called with a
    path alone, as the test of the repository calls it, it raises
    [TypeError], whereas [AccessData.read] on the same path returns the
    view. *)
Theorem AccessData_by_path_raises :
  (forall path : pyval, AccessData_call [path] = Raise TypeError)
  /\ AccessData_call [PyStr "access_data/access_seed123"] = Raise TypeError
  /\ read example_fs "access_data/access_seed123"
     = Ok (view 2 example_info example_table example_table_scaled).
Proof. repeat split. Qed.

(** C6, as stated, fails.  [runs] holds an empty directory
    [access_info_000001] before the run directory [access_info_000042]:
    the run directory is read by its own path, but from [runs] the reader
    enters the first directory and raises.  [modern] holds one run
    directory, [access_seed123]: it is read by its own path, and never
    found from [modern], since its name lacks the prefix the reader looks
    for. *)
Lemma read_parent_counterexample :
  read example_fs "runs/access_info_000042"
  = Ok (view 2 example_info example_table example_table_scaled)
  /\ find_access_path example_fs "runs" = Ok "runs/access_info_000001"
  /\ read example_fs "runs" = Raise OSError
  /\ read example_fs "modern/access_seed123"
     = Ok (view 2 example_info example_table example_table_scaled)
  /\ find_access_path example_fs "modern" = Ok "modern"
  /\ read example_fs "modern" = Raise OSError.
Proof. repeat split. Qed.

(** C6, amended.  The reader knows one layout of a run directory, found
    by file names alone: the snapshot [access_info.pickle] and one pair
    [opt_history_<N>.csv], [opt_history_<N>_scaled.csv] with [N > 0].
    Whatever the directory is called, it reads such a directory from the
    directory's own path, if the path starts with [access_info_] or the
    directory has no entry that does; and from the parent directory, if
    the run directory is the first entry of the parent whose name starts
    with [access_info_] and the parent's own path does not. *)
Theorem read_run_directory_or_parent fs dir n info table table_scaled :
  run_directory fs dir n info table table_scaled ->
  ((startswith dir "access_info_" = true
    \/ exists entries,
         listdir fs dir = Ok entries
         /\ find (fun f => startswith f "access_info_") entries = None) ->
   read fs dir = Ok (view n info table table_scaled))
  /\ (forall parent entries name,
        startswith parent "access_info_" = false ->
        listdir fs parent = Ok entries ->
        find (fun f => startswith f "access_info_") entries = Some name ->
        join parent name = dir ->
        read fs parent = Ok (view n info table table_scaled)).
Proof.
  intros Hrun. split.
  - intros Hself. apply (read_run_directory fs dir dir); [|exact Hrun].
    unfold find_access_path.
    destruct Hself as [->|(entries & -> & Hnone)]; [reflexivity|].
    destruct (startswith dir "access_info_"); [reflexivity|].
    simpl. now rewrite Hnone.
  - intros parent entries name Hparent Hlist Hfind Hjoin.
    apply (read_run_directory fs parent dir); [|exact Hrun].
    unfold find_access_path. rewrite Hparent, Hlist. simpl.
    now rewrite Hfind, Hjoin.
Qed.

Lemma read_run_directory_or_parent_witness :
  read example_fs "access_data/access_info_000042"
  = Ok (view 2 example_info example_table example_table_scaled)
  /\ read example_fs "access_data"
     = Ok (view 2 example_info example_table example_table_scaled).
Proof.
  assert (Hrun : run_directory example_fs "access_data/access_info_000042" 2
                   example_info example_table example_table_scaled).
  { constructor; try reflexivity. eexists. split; reflexivity. }
  destruct (read_run_directory_or_parent _ _ _ _ _ _ Hrun)
    as [Hself Hparent].
  split.
  - apply Hself. right. eexists. split; reflexivity.
  - apply (Hparent "access_data" ["access_seed123"; "access_info_000042"]
             "access_info_000042"); reflexivity.
Defined.

End ReaderEntryPoints.

(* ===================================================================== *)
(** * Parameters: the table a construction returns                        *)
(* ===================================================================== *)

Section ParametersShape.

Import base spec shape.

Lemma has_placeholder_dec (cmd : string) :
  Re.search Re.match_placeholder cmd = false -> ~ has_placeholder cmd.
Proof. rewrite <- search_placeholder_iff. congruence. Qed.

(** X1. A table the constructor returns is a frame: its index is the
    variables, each of its five columns has one cell per variable, and
    every command it stores holds a placeholder. *)
Theorem Parameters_init_well_formed variables commands initial_values
    minimums maximums sigma0 p :
  Parameters_init variables commands initial_values minimums maximums sigma0
  = Ok p ->
  well_formed p = true
  /\ index p = variables
  /\ col_command p = commands
  /\ forall cmd, In cmd (col_command p) -> has_placeholder cmd.
Proof.
  intros Hp.
  destruct (Parameters_init_cases variables commands initial_values
              minimums maximums sigma0) as [[_ Hr]|[Hvalid Hr]];
    simpl in Hr; rewrite Hr in Hp; [discriminate|].
  pose proof (Parameters_init_ok _ _ _ _ _ _ _ Hr)
    as ((Hvc & Hci & Him & Hmm) & _ & Hidx & Hcmd & Hval & Hmin & Hmax & Hsig).
  injection Hp as <-.
  split; [|split; [reflexivity|split; [reflexivity|]]].
  - unfold well_formed, built; simpl.
    rewrite !length_as_float_array.
    assert (Hs : List.length
                   match sigma0 with
                   | Some s => s
                   | None =>
                       map (F64.mul F64.c0_2)
                         (zip_with F64.sub (as_float_array maximums)
                            (as_float_array minimums))
                   end = List.length variables).
    { destruct sigma0 as [s|].
      - destruct (Nat.eq_dec (List.length s) (List.length variables))
          as [Hs|Hs]; [exact Hs|].
        exfalso. apply Hvalid. right; right; right. now exists s.
      - rewrite length_map, length_zip_with, length_as_float_array;
          [congruence|].
        now rewrite !length_as_float_array. }
    rewrite Hs.
    repeat (apply andb_true_intro; split); apply Nat.eqb_eq; congruence.
  - simpl. intros cmd Hin.
    destruct (Re.search Re.match_placeholder cmd) eqn:Hs.
    + now apply search_placeholder_iff.
    + exfalso. apply Hvalid. right; right; left. exists cmd.
      split; [exact Hin|now apply has_placeholder_dec].
Qed.

Lemma Parameters_init_well_formed_witness :
  exists p,
    Parameters_init ["corPP"; "corPW"]
      ["fix m3 ${corPP} ${corPW}"; "fix m3 ${corPP} ${corPW}"]
      [Some half; Some half] [Some F64.zero; None] [Some F64.one; None]
      (Some [F64.c0_2; F64.c0_2]) = Ok p
    /\ well_formed p = true.
Proof.
  eexists. split; [reflexivity|].
  exact (proj1 (Parameters_init_well_formed ["corPP"; "corPW"]
                  ["fix m3 ${corPP} ${corPW}"; "fix m3 ${corPP} ${corPW}"]
                  [Some half; Some half] [Some F64.zero; None]
                  [Some F64.one; None] (Some [F64.c0_2; F64.c0_2]) _
                  eq_refl)).
Defined.

Lemma invalid_input_initial_values variables commands initial_values
    initial_values' minimums maximums sigma0 :
  List.length initial_values = List.length initial_values' ->
  invalid_input variables commands initial_values minimums maximums sigma0 ->
  invalid_input variables commands initial_values' minimums maximums sigma0.
Proof.
  intros Hlen [H|H]; [left|now right].
  unfold equal_lengths in *. rewrite <- Hlen. exact H.
Qed.

(** X2. The initial values are stored and never examined: two calls that
    differ only in the initial values, of one length, either both raise
    or both return, and then the tables agree on the index and on the
    command, min, max and sigma columns. *)
Theorem Parameters_init_ignores_values variables commands initial_values
    initial_values' minimums maximums sigma0 :
  List.length initial_values = List.length initial_values' ->
  let r := Parameters_init variables commands initial_values minimums
             maximums sigma0 in
  let r' := Parameters_init variables commands initial_values' minimums
              maximums sigma0 in
  (r = Raise ValueError /\ r' = Raise ValueError)
  \/ exists p p',
       r = Ok p /\ r' = Ok p'
       /\ index p' = index p
       /\ col_command p' = col_command p
       /\ col_min p' = col_min p
       /\ col_max p' = col_max p
       /\ col_sigma p' = col_sigma p
       /\ col_value p = as_float_array initial_values
       /\ col_value p' = as_float_array initial_values'.
Proof.
  intros Hlen r r'. subst r r'.
  destruct (Parameters_init_cases variables commands initial_values
              minimums maximums sigma0) as [[Hinv Hr]|[Hvalid Hr]];
    destruct (Parameters_init_cases variables commands initial_values'
                minimums maximums sigma0) as [[Hinv' Hr']|[Hvalid' Hr']];
    simpl in Hr, Hr'; rewrite Hr, Hr'.
  - now left.
  - exfalso. apply Hvalid'.
    now apply (invalid_input_initial_values _ _ initial_values).
  - exfalso. apply Hvalid.
    now apply (invalid_input_initial_values _ _ initial_values').
  - right. do 2 eexists. repeat (split; [reflexivity|]). reflexivity.
Qed.

Lemma Parameters_init_ignores_values_witness :
  exists p p',
    Parameters_init ["corPP"] ["fix m3 ${corPP}"] [Some half]
      [Some F64.zero] [Some F64.one] None = Ok p
    /\ Parameters_init ["corPP"] ["fix m3 ${corPP}"] [Some examples.two]
         [Some F64.zero] [Some F64.one] None = Ok p'
    /\ col_sigma p' = col_sigma p.
Proof.
  destruct (Parameters_init_ignores_values ["corPP"] ["fix m3 ${corPP}"]
              [Some half] [Some examples.two] [Some F64.zero]
              [Some F64.one] None eq_refl)
    as [[Hr _]|(p & p' & Hp & Hp' & _ & _ & _ & _ & Hsigma & _)].
  - discriminate Hr.
  - exists p, p'. now repeat split.
Defined.

End ParametersShape.

(* ===================================================================== *)
(** * Rows of a table by label                                            *)
(* ===================================================================== *)

Section RowFacts.

Import base shape.

Lemma well_formed_inv (p : Parameters) :
  well_formed p = true ->
  List.length (col_command p) = List.length (index p)
  /\ List.length (col_value p) = List.length (index p).
Proof.
  unfold well_formed. rewrite !andb_true_iff, !Nat.eqb_eq. tauto.
Qed.

Lemma well_formed_at_set_value (p : Parameters) key value :
  well_formed p = true -> well_formed (at_set_value p key value) = true.
Proof.
  intros Hwf. pose proof (well_formed_inv p Hwf) as [_ Hval].
  unfold well_formed in *. simpl.
  rewrite length_zip_with by congruence.
  rewrite !andb_true_iff in *. rewrite Nat.eqb_refl. tauto.
Qed.

(** Overwriting a cell twice is overwriting it once. *)
Lemma set_twice (key : string) (v1 v2 : float) labels values :
  zip_with (fun name v => if String.eqb name key then v2 else v) labels
    (zip_with (fun name v => if String.eqb name key then v1 else v) labels
       values)
  = zip_with (fun name v => if String.eqb name key then v2 else v) labels
      values.
Proof.
  revert values; induction labels as [|l labels IH]; intros [|x values];
    simpl; try reflexivity.
  rewrite IH. now destruct (String.eqb l key).
Qed.

(** Cells of different labels are overwritten independently. *)
Lemma set_commute (k1 k2 : string) (v1 v2 : float) labels values :
  k1 <> k2 ->
  zip_with (fun name v => if String.eqb name k2 then v2 else v) labels
    (zip_with (fun name v => if String.eqb name k1 then v1 else v) labels
       values)
  = zip_with (fun name v => if String.eqb name k1 then v1 else v) labels
      (zip_with (fun name v => if String.eqb name k2 then v2 else v) labels
         values).
Proof.
  intros Hne.
  revert values; induction labels as [|l labels IH]; intros [|x values];
    simpl; try reflexivity.
  rewrite IH. f_equal.
  destruct (String.eqb_spec l k1), (String.eqb_spec l k2);
    try reflexivity; congruence.
Qed.

Lemma loc_value_at_set_value (p : Parameters) key value :
  in_index p key = true ->
  List.length (col_value p) = List.length (index p) ->
  loc_value (at_set_value p key value) key = value.
Proof.
  unfold in_index, loc_value, at_set_value; simpl.
  generalize (col_value p). induction (index p) as [|l labels IH];
    intros values Hin Hlen; simpl in *; [discriminate|].
  destruct values as [|x values]; [discriminate|]. simpl.
  rewrite String.eqb_sym in Hin.
  destruct (String.eqb l key) eqn:Hl; simpl; [reflexivity|].
  apply IH; [exact Hin|]. now injection Hlen.
Qed.

Lemma cells_absent {A : Type} labels (column : list A) key :
  existsb (String.eqb key) labels = false -> cells labels column key = [].
Proof.
  unfold cells. revert column; induction labels as [|l labels IH];
    intros [|c column]; simpl; try reflexivity.
  intros Hin. apply orb_false_iff in Hin as [Hl Hin].
  rewrite String.eqb_sym, Hl. now apply IH.
Qed.

Lemma cells_nil_absent {A : Type} labels (column : list A) key :
  List.length column = List.length labels ->
  cells labels column key = [] -> existsb (String.eqb key) labels = false.
Proof.
  unfold cells. revert column; induction labels as [|l labels IH];
    intros [|c column]; simpl; try reflexivity; try discriminate.
  intros [= Hlen]. rewrite (String.eqb_sym key l).
  destruct (String.eqb l key); simpl; [discriminate|]. now apply IH.
Qed.

(** In a table of distinct labels a label has one cell per column. *)
Lemma cells_distinct {A : Type} labels (column : list A) key i c :
  distinct labels = true ->
  nth_error labels i = Some key -> nth_error column i = Some c ->
  cells labels column key = [c].
Proof.
  revert column i; induction labels as [|l labels IH];
    intros [|x column] [|i]; simpl; try discriminate.
  - intros Hd [= ->] [= ->]. apply andb_prop in Hd as [Hl _].
    apply negb_true_iff in Hl. unfold cells; simpl.
    rewrite String.eqb_refl. simpl. f_equal.
    now apply (cells_absent labels column key).
  - intros Hd Hkey Hc. apply andb_prop in Hd as [Hl Hd].
    apply negb_true_iff in Hl. unfold cells; simpl.
    destruct (String.eqb_spec l key) as [->|Hne].
    + exfalso. apply nth_error_In in Hkey.
      assert (Hex : existsb (String.eqb key) labels = true).
      { apply existsb_exists. exists key. split; [exact Hkey|].
        apply String.eqb_refl. }
      congruence.
    + now apply (IH column i).
Qed.

(** Distinct labels are what gives every label a single cell. *)
Lemma distinct_of_cells {A : Type} labels (column : list A) :
  List.length column = List.length labels ->
  (forall l, In l labels -> exists c, cells labels column l = [c]) ->
  distinct labels = true.
Proof.
  revert column; induction labels as [|l labels IH]; intros [|x column];
    simpl; try reflexivity; try discriminate.
  intros [= Hlen] Hone.
  assert (Hl : existsb (String.eqb l) labels = false).
  { destruct (Hone l (or_introl eq_refl)) as (c & Hc).
    unfold cells in Hc; simpl in Hc. rewrite String.eqb_refl in Hc.
    simpl in Hc. injection Hc as _ Hc.
    now apply (cells_nil_absent labels column l). }
  rewrite Hl; simpl. apply (IH column Hlen).
  intros l' Hin. destruct (Hone l' (or_intror Hin)) as (c & Hc).
  exists c. unfold cells in *; simpl in Hc.
  destruct (String.eqb_spec l l') as [->|Hne]; [|exact Hc].
  exfalso. assert (Hex : existsb (String.eqb l') labels = true).
  { apply existsb_exists. exists l'. split; [exact Hin|].
    apply String.eqb_refl. }
  congruence.
Qed.

Lemma set_value_gen {A : Type} (key : string) (y : float) labels
    (column : list A) (values : list float) :
  List.length column = List.length labels ->
  List.length values = List.length labels ->
  (cells labels column key = [] \/ exists c, cells labels column key = [c]) ->
  (forall row rest,
     filter (fun row => String.eqb (fst row) key) (combine labels values)
     = row :: rest -> snd row = y) ->
  zip_with (fun name v => if String.eqb name key then y else v) labels values
  = values.
Proof.
  revert column values; induction labels as [|l labels IH];
    intros [|x column] [|v values]; simpl; try reflexivity;
    try discriminate.
  intros [= Hc] [= Hv] Hcells Hfirst. unfold cells in Hcells; simpl in *.
  destruct (String.eqb l key) eqn:Hl; simpl in *.
  - pose proof (Hfirst (l, v) _ eq_refl) as Hy. simpl in Hy.
    rewrite <- Hy at 1. f_equal.
    assert (Hrest : cells labels column key = []).
    { destruct Hcells as [Hn|(c & Hn)]; [discriminate Hn|].
      now injection Hn. }
    apply (IH column values Hc Hv); [now left|].
    intros row rest Hrow. exfalso.
    apply cells_nil_absent in Hrest; [|exact Hc].
    pose proof (cells_absent labels values key Hrest) as Hnone.
    unfold cells in Hnone. rewrite Hrow in Hnone. discriminate Hnone.
  - f_equal. now apply (IH column values Hc Hv).
Qed.

(** Writing back the value found under a label that has one row changes
    nothing. *)
Lemma set_found_value {A : Type} (key : string) (d : float) labels
    (column : list A) (values : list float) (c : A) :
  List.length column = List.length labels ->
  List.length values = List.length labels ->
  cells labels column key = [c] ->
  zip_with
    (fun name v =>
       if String.eqb name key
       then match filter (fun row => String.eqb (fst row) key)
                    (combine labels values) with
            | row :: _ => snd row
            | [] => d
            end
       else v)
    labels values
  = values.
Proof.
  intros Hc Hv Hone.
  apply (set_value_gen key _ labels column values Hc Hv).
  - right. now exists c.
  - intros row rest ->. reflexivity.
Qed.

End RowFacts.

(* ===================================================================== *)
(** * Simulation: assignments to parameters, and the constructor          *)
(* ===================================================================== *)

Section SetitemFacts.

Import base spec shape.
Context {E : Type} `{Liggghts E} `{FloatStr}.

Lemma loc_command_cells (p : Parameters) (key : string) :
  loc_command p key
  = match cells (index p) (col_command p) key with
    | [cmd] => Ok cmd
    | _ => Raise TypeError
    end.
Proof. reflexivity. Qed.

(** Whether an assignment returns depends on the labels and the commands
    of the table alone. *)
Lemma setitem_returns_iff (self : Simulation E) key value :
  snd (setitem self key value) = Ok tt
  <-> in_index (parameters self) key = true
      /\ exists cmd, loc_command (parameters self) key = Ok cmd.
Proof.
  unfold setitem.
  destruct (in_index (parameters self) key); simpl.
  - destruct (loc_command (parameters self) key) as [cmd|e]; simpl.
    + split; [intros _; split; [reflexivity|now exists cmd]|reflexivity].
    + split; [discriminate|]. now intros (_ & cmd & Hcmd).
  - split; [discriminate|]. now intros (Hin & _).
Qed.

(** The table after an assignment. *)
Lemma setitem_table (self : Simulation E) key value :
  parameters (fst (setitem self key value))
  = match snd (setitem self key value) with
    | Ok _ => at_set_value (parameters self) key value
    | Raise _ => parameters self
    end.
Proof.
  unfold setitem.
  destruct (in_index (parameters self) key); simpl; [|reflexivity].
  now destruct (loc_command (parameters self) key).
Qed.

(** X3. An assignment to a name that is not in the index raises
    [AttributeError]; and whenever an assignment raises, the instance is
    left exactly as it was: table, step size, engine and all, no command
    having been sent. *)
Theorem setitem_raises_unchanged (self : Simulation E) key value :
  (in_index (parameters self) key = false ->
   setitem self key value = (self, Raise AttributeError))
  /\ forall e,
       snd (setitem self key value) = Raise e ->
       fst (setitem self key value) = self
       /\ (e = AttributeError <-> in_index (parameters self) key = false).
Proof.
  unfold setitem. split.
  - now intros ->.
  - intros e. destruct (in_index (parameters self) key); simpl.
    + destruct (loc_command (parameters self) key) as [cmd|e'] eqn:Hcmd;
        simpl; [discriminate|].
      intros [= <-]. split; [reflexivity|].
      rewrite loc_command_cells in Hcmd.
      split; [|discriminate]. intros ->.
      destruct (cells _ _ key) as [|c [|c' cs]]; discriminate.
    + intros [= <-]. now split.
Qed.

(** X4. What an assignment stores is what a lookup finds: after
    [simulation[key] = value] has returned on a well-formed table,
    [parameters.loc[key, "value"]] is [value]. *)
Theorem setitem_then_loc_value (self : Simulation E) key value :
  well_formed (parameters self) = true ->
  snd (setitem self key value) = Ok tt ->
  loc_value (parameters (fst (setitem self key value))) key = value.
Proof.
  intros Hwf Hret. rewrite setitem_table, Hret.
  apply setitem_returns_iff in Hret as [Hin _].
  apply loc_value_at_set_value; [exact Hin|].
  now apply well_formed_inv.
Qed.

Lemma at_set_value_twice (p : Parameters) key v1 v2 :
  at_set_value (at_set_value p key v1) key v2 = at_set_value p key v2.
Proof. unfold at_set_value; simpl. now rewrite set_twice. Qed.

Lemma at_set_value_commute (p : Parameters) k1 k2 v1 v2 :
  k1 <> k2 ->
  at_set_value (at_set_value p k1 v1) k2 v2
  = at_set_value (at_set_value p k2 v2) k1 v1.
Proof. intros Hne. unfold at_set_value; simpl. now rewrite set_commute. Qed.

Lemma setitem_returns_after (self : Simulation E) k1 v1 k2 v2 :
  snd (setitem self k1 v1) = Ok tt ->
  snd (setitem (fst (setitem self k1 v1)) k2 v2) = snd (setitem self k2 v2).
Proof.
  intros Hret. pose proof (setitem_table self k1 v1) as Htab.
  rewrite Hret in Htab.
  unfold setitem at 1. rewrite Htab.
  unfold in_index, loc_command; simpl.
  unfold setitem, in_index, loc_command.
  destruct (negb _); [reflexivity|].
  now destruct (map snd _) as [|c [|c' cs]].
Qed.

(** X5. A second assignment to the same name overrides the first: the
    table after [simulation[key] = v1; simulation[key] = v2] is the table
    after [simulation[key] = v2] alone, and the second assignment returns
    as the first did. *)
Theorem setitem_overwrites (self : Simulation E) key v1 v2 :
  snd (setitem self key v1) = Ok tt ->
  let once := fst (setitem self key v1) in
  snd (setitem once key v2) = Ok tt
  /\ parameters (fst (setitem once key v2))
     = parameters (fst (setitem self key v2)).
Proof.
  intros Hret once. subst once.
  assert (Hret2 : snd (setitem self key v2) = Ok tt).
  { apply setitem_returns_iff. now apply setitem_returns_iff in Hret. }
  pose proof (setitem_returns_after self key v1 key v2 Hret) as Hafter.
  rewrite Hret2 in Hafter. split; [exact Hafter|].
  rewrite !setitem_table, Hafter, Hret, Hret2.
  apply at_set_value_twice.
Qed.

(** X6. Assignments to two different names can be made in either order:
    both orders return and leave the same table. *)
Theorem setitem_commutes (self : Simulation E) k1 v1 k2 v2 :
  k1 <> k2 ->
  snd (setitem self k1 v1) = Ok tt ->
  snd (setitem self k2 v2) = Ok tt ->
  snd (setitem (fst (setitem self k1 v1)) k2 v2) = Ok tt
  /\ snd (setitem (fst (setitem self k2 v2)) k1 v1) = Ok tt
  /\ parameters (fst (setitem (fst (setitem self k1 v1)) k2 v2))
     = parameters (fst (setitem (fst (setitem self k2 v2)) k1 v1)).
Proof.
  intros Hne H1 H2.
  pose proof (setitem_returns_after self k1 v1 k2 v2 H1) as H12.
  pose proof (setitem_returns_after self k2 v2 k1 v1 H2) as H21.
  rewrite H2 in H12. rewrite H1 in H21.
  split; [exact H12|]. split; [exact H21|].
  rewrite !setitem_table, H12, H21, H1, H2.
  now apply at_set_value_commute.
Qed.


End SetitemFacts.

Section ConstructorFacts.

Import base spec shape.
Context {E : Type} `{Liggghts E} `{FloatStr}.

(** Assigning to a label the value the table holds for it changes
    no cell. *)
Lemma at_set_value_found (p : Parameters) key cmd :
  well_formed p = true -> loc_command p key = Ok cmd ->
  at_set_value p key (loc_value p key) = p.
Proof.
  intros Hwf Hcmd. destruct (well_formed_inv p Hwf) as [Hc Hv].
  rewrite loc_command_cells in Hcmd.
  assert (Hone : cells (index p) (col_command p) key = [cmd]).
  { destruct (cells _ _ key) as [|c [|c' cs]]; try discriminate.
    now injection Hcmd as ->. }
  destruct p as [idx cmds vals mins maxs sigs].
  unfold at_set_value, loc_value; simpl in *. f_equal.
  now apply (set_found_value key F64.nan idx cmds vals cmd).
Qed.

Lemma setitem_found_table (self : Simulation E) key :
  well_formed (parameters self) = true ->
  parameters (fst (setitem self key (loc_value (parameters self) key)))
  = parameters self.
Proof.
  intros Hwf. rewrite setitem_table.
  destruct (snd (setitem self key _)) as [[]|e] eqn:Hret; [|reflexivity].
  apply setitem_returns_iff in Hret as (_ & cmd & Hcmd).
  now apply (at_set_value_found _ key cmd).
Qed.

Lemma setitem_frame_fields (self : Simulation E) key value :
  filename (fst (setitem self key value)) = filename self
  /\ _step_size (fst (setitem self key value)) = _step_size self
  /\ _verbose (fst (setitem self key value)) = _verbose self.
Proof.
  unfold setitem. destruct (negb _); [now repeat split|].
  destruct (loc_command _ _); now repeat split.
Qed.

(** The loop of the constructor leaves the table, the file name and the
    step size as they were. *)
Lemma set_each_frame (self self' : Simulation E) labels (r : result unit) :
  well_formed (parameters self) = true ->
  set_each self labels = (self', r) ->
  parameters self' = parameters self
  /\ filename self' = filename self
  /\ _step_size self' = _step_size self.
Proof.
  revert self; induction labels as [|idx labels IH]; intros self Hwf; simpl.
  - now intros [= <- _].
  - pose proof (setitem_found_table self idx Hwf) as Htab.
    pose proof (setitem_frame_fields self idx
                  (loc_value (parameters self) idx)) as (Hf & Hs & _).
    destruct (setitem self idx _) as [self1 [u|e]]; simpl in *.
    + intros Hrest. rewrite <- Htab in Hwf.
      destruct (IH self1 Hwf Hrest) as (-> & -> & ->). now repeat split.
    + intros [= <- _]. now repeat split.
Qed.

(** The loop returns when every label has a single row, and raises
    [TypeError] otherwise. *)
Lemma set_each_returns (self : Simulation E) labels :
  well_formed (parameters self) = true ->
  (forall l, In l labels -> in_index (parameters self) l = true) ->
  (forall l, In l labels ->
             exists cmd, loc_command (parameters self) l = Ok cmd) ->
  snd (set_each self labels) = Ok tt.
Proof.
  revert self; induction labels as [|idx labels IH]; intros self Hwf Hin Hone;
    simpl; [reflexivity|].
  pose proof (setitem_found_table self idx Hwf) as Htab.
  assert (Hret : snd (setitem self idx (loc_value (parameters self) idx))
                 = Ok tt).
  { apply setitem_returns_iff. split; [apply Hin; now left|].
    apply Hone. now left. }
  destruct (setitem self idx _) as [self1 [u|e]]; simpl in *;
    [|discriminate Hret].
  apply IH; rewrite Htab; try assumption.
  - intros l Hl. apply Hin. now right.
  - intros l Hl. apply Hone. now right.
Qed.

Lemma set_each_raises (self : Simulation E) labels e :
  well_formed (parameters self) = true ->
  (forall l, In l labels -> in_index (parameters self) l = true) ->
  snd (set_each self labels) = Raise e ->
  e = TypeError
  /\ exists l, In l labels
               /\ loc_command (parameters self) l = Raise TypeError.
Proof.
  revert self; induction labels as [|idx labels IH]; intros self Hwf Hin;
    simpl; [discriminate|].
  pose proof (setitem_found_table self idx Hwf) as Htab.
  destruct (setitem self idx _) as [self1 [u|e']] eqn:Hset; simpl in *.
  - intros Hrest. rewrite <- Htab in Hwf.
    assert (Hin1 : forall l, In l labels ->
                             in_index (parameters self1) l = true).
    { intros l Hl. rewrite Htab. apply Hin. now right. }
    destruct (IH self1 Hwf Hin1 Hrest) as (-> & l & Hl & Hloc).
    split; [reflexivity|]. exists l. split; [now right|].
    now rewrite <- Htab.
  - intros [= <-].
    assert (Hidx : in_index (parameters self) idx = true)
      by (apply Hin; now left).
    unfold setitem in Hset. rewrite Hidx in Hset. simpl in Hset.
    destruct (loc_command (parameters self) idx) as [cmd|e''] eqn:Hloc;
      [discriminate Hset|].
    injection Hset as _ <-.
    rewrite loc_command_cells in Hloc.
    assert (He : e'' = TypeError)
      by (destruct (cells _ _ idx) as [|c [|c' cs]]; congruence).
    subst e''. split; [reflexivity|]. exists idx. split; [now left|].
    rewrite loc_command_cells. exact Hloc.
Qed.

Lemma set_each_returns_inv (self : Simulation E) labels :
  well_formed (parameters self) = true ->
  snd (set_each self labels) = Ok tt ->
  forall l, In l labels ->
            exists cmd, loc_command (parameters self) l = Ok cmd.
Proof.
  revert self; induction labels as [|idx labels IH]; intros self Hwf;
    simpl; [contradiction|].
  pose proof (setitem_found_table self idx Hwf) as Htab.
  pose proof (setitem_returns_iff self idx
                (loc_value (parameters self) idx)) as Hiff.
  destruct (setitem self idx _) as [self1 [u|e]]; simpl in *;
    [|discriminate].
  intros Hrest l [<-|Hl].
  - destruct u. now apply Hiff.
  - rewrite <- Htab. apply (IH self1); [now rewrite Htab| |]; assumption.
Qed.

Lemma in_index_In (p : Parameters) l :
  In l (index p) -> in_index p l = true.
Proof.
  intros Hl. unfold in_index. apply existsb_exists.
  exists l. split; [exact Hl|apply String.eqb_refl].
Qed.

(** X8. Constructing a simulation does not alter the parameter table:
    the instance holds the table it was given, the script path as its
    file name, and the engine's [dt] as its step size, read after the
    script was loaded. *)
Theorem Simulation_init_keeps_table (readable : string -> bool)
    (script : string) (table : Parameters) (flag : pyval)
    (built : Simulation E) :
  well_formed table = true ->
  Simulation_init readable script table flag = Ok built ->
  parameters built = table
  /\ filename built = script
  /\ _step_size built
     = extract_global
         (file (liggghts_new
                  (if truthy flag then [] else ["-screen"; "/dev/null"]))
            script)
         "dt".
Proof.
  intros Hwf Hinit. unfold Simulation_init in Hinit.
  destruct (negb (readable script)); [discriminate Hinit|].
  destruct (set_each _ (index table)) as [self' [u|e]] eqn:Hloop;
    [|discriminate Hinit].
  injection Hinit as <-.
  pose proof (fun W => set_each_frame _ _ _ _ W Hloop) as Hframe.
  destruct (Hframe Hwf) as (-> & -> & ->).
  simpl. split; [reflexivity|]. split; [reflexivity|].
  now destruct (truthy flag).
Qed.

(** X9. On a well-formed table the constructor returns exactly when the
    script can be opened and the labels are pairwise distinct: it raises
    [OSError] when the script cannot be opened, and [TypeError] when it
    can but a label is repeated. *)
Theorem Simulation_init_returns_iff (readable : string -> bool)
    (script : string) (table : Parameters) (flag : pyval) :
  well_formed table = true ->
  let r := @Simulation_init E _ _ readable script table flag in
  (readable script = false -> r = Raise OSError)
  /\ (readable script = true -> distinct (index table) = true ->
      exists built, r = Ok built)
  /\ (readable script = true -> distinct (index table) = false ->
      r = Raise TypeError).
Proof.
  intros Hwf r. subst r. unfold Simulation_init.
  split; [now intros ->|].
  set (self0 := {| simulation := _; filename := script;
                   parameters := table; _step_size := _;
                   _verbose := truthy flag |}).
  assert (Hwf0 : well_formed (parameters self0) = true) by exact Hwf.
  assert (Hin0 : forall l, In l (index table) ->
                           in_index (parameters self0) l = true)
    by (intros l Hl; now apply in_index_In).
  destruct (well_formed_inv table Hwf) as [Hc _].
  split.
  - intros -> Hd. simpl.
    assert (Hret : snd (set_each self0 (index table)) = Ok tt).
    { apply set_each_returns; try assumption.
      intros l Hl. apply In_nth_error in Hl as (i & Hi).
      assert (Hcmd : exists cmd, nth_error (col_command table) i = Some cmd).
      { destruct (nth_error (col_command table) i) as [cmd|] eqn:Hn;
          [now exists cmd|].
        apply nth_error_None in Hn.
        assert (i < List.length (index table))%nat
          by (apply nth_error_Some; congruence).
        lia. }
      destruct Hcmd as (cmd & Hcmd). exists cmd.
      rewrite loc_command_cells. simpl.
      now rewrite (cells_distinct (index table) (col_command table) l i cmd). }
    destruct (set_each self0 (index table)) as [self' [u|e]];
      [now exists self'|discriminate Hret].
  - intros -> Hd. simpl.
    destruct (set_each self0 (index table)) as [self' [u|e]] eqn:Hloop.
    + exfalso.
      assert (Hret : snd (set_each self0 (index table)) = Ok tt)
        by (rewrite Hloop; now destruct u).
      pose proof (set_each_returns_inv self0 (index table) Hwf0 Hret)
        as Hall.
      assert (Hone : forall l, In l (index table) ->
                 exists c, cells (index table) (col_command table) l = [c]).
      { intros l Hl. destruct (Hall l Hl) as (cmd & Hloc).
        rewrite loc_command_cells in Hloc. simpl in Hloc. exists cmd.
        destruct (cells _ _ l) as [|c [|c' cs]]; try discriminate.
        now injection Hloc as ->. }
      pose proof (distinct_of_cells (index table) (col_command table) Hc
                    Hone).
      congruence.
    + assert (Hr : snd (set_each self0 (index table)) = Raise e)
        by now rewrite Hloop.
      now destruct (set_each_raises self0 (index table) e Hwf0 Hin0 Hr)
        as [-> _].
Qed.

End ConstructorFacts.

Section SetitemWitnesses.

Import base spec shape examples.

Local Abbreviation setitem' :=
  (@setitem _ recording_engine example_float_str).

Lemma setitem_raises_unchanged_witness :
  setitem' example_simulation "youngmodP" half
  = (example_simulation, Raise AttributeError).
Proof.
  apply (proj1 (@setitem_raises_unchanged _ recording_engine
                  example_float_str example_simulation "youngmodP" half)).
  reflexivity.
Defined.

Lemma setitem_then_loc_value_witness :
  loc_value
    (parameters (fst (setitem' example_simulation "corPW" three_quarters)))
    "corPW"
  = three_quarters.
Proof.
  apply (@setitem_then_loc_value _ recording_engine example_float_str
           example_simulation "corPW" three_quarters); reflexivity.
Defined.

Lemma setitem_overwrites_witness :
  parameters
    (fst (setitem' (fst (setitem' example_simulation "corPP" two))
            "corPP" three_quarters))
  = parameters (fst (setitem' example_simulation "corPP" three_quarters)).
Proof.
  apply (@setitem_overwrites _ recording_engine example_float_str
           example_simulation "corPP" two three_quarters).
  reflexivity.
Defined.

Lemma setitem_commutes_witness :
  parameters
    (fst (setitem' (fst (setitem' example_simulation "corPP" two))
            "corPW" three_quarters))
  = parameters
      (fst (setitem' (fst (setitem' example_simulation "corPW"
                             three_quarters))
              "corPP" two)).
Proof.
  apply (@setitem_commutes _ recording_engine example_float_str
           example_simulation "corPP" two "corPW" three_quarters);
    [discriminate|reflexivity|reflexivity].
Defined.


Lemma Simulation_init_keeps_table_witness :
  exists built,
    @Simulation_init _ recording_engine example_float_str (fun _ => true)
      "run.sim" example_parameters (PyBool false) = Ok built
    /\ parameters built = example_parameters
    /\ filename built = "run.sim".
Proof.
  eexists. split; [reflexivity|].
  destruct (@Simulation_init_keeps_table _ recording_engine
              example_float_str (fun _ => true) "run.sim" example_parameters
              (PyBool false) _ eq_refl eq_refl) as (Htab & Hfile & _).
  split; [exact Htab|exact Hfile].
Defined.

Lemma Simulation_init_returns_iff_witness :
  @Simulation_init _ recording_engine example_float_str (fun _ => false)
    "run.sim" example_parameters (PyBool true) = Raise OSError
  /\ (exists built,
        @Simulation_init _ recording_engine example_float_str
          (fun _ => true) "run.sim" example_parameters (PyBool true)
        = Ok built)
  /\ @Simulation_init _ recording_engine example_float_str (fun _ => true)
       "run.sim" repeated_parameters (PyBool true) = Raise TypeError.
Proof.
  split; [|split].
  - apply (@Simulation_init_returns_iff _ recording_engine
             example_float_str (fun _ => false) "run.sim" example_parameters
             (PyBool true) eq_refl). reflexivity.
  - apply (@Simulation_init_returns_iff _ recording_engine
             example_float_str (fun _ => true) "run.sim" example_parameters
             (PyBool true) eq_refl); reflexivity.
  - apply (@Simulation_init_returns_iff _ recording_engine
             example_float_str (fun _ => true) "run.sim" repeated_parameters
             (PyBool true) eq_refl); reflexivity.
Defined.

End SetitemWitnesses.

(* ===================================================================== *)
(** * The run reader: which entry it reads, and when it raises            *)
(* ===================================================================== *)

Section ReaderEdges.

Import Re base utilities spec.

(** Once the path is resolved and the directory listed, [read] is its
    loop followed by the loads. *)
Ltac read_listed Hfind Hlist :=
  unfold read; rewrite Hfind; cbn [bind]; rewrite Hlist; cbn [bind].

(** X10. When several entries of the directory match the history pattern,
    the reader uses the last of them in listing order: the population
    size and the history table of the view it returns are those of that
    entry. *)
Theorem read_uses_last_history fs path dir before f after d :
  find_access_path fs path = Ok dir ->
  listdir fs dir = Ok (before ++ f :: after)%list ->
  search match_history f = true ->
  filter (search match_history) after = [] ->
  read fs path = Ok d ->
  exists field history,
    population_field (join dir f) = Ok field
    /\ py_int field = Ok (num_solutions d)
    /\ loadtxt fs (join dir f) = Ok history
    /\ DataFrame_new history (results_columns (utilities.parameters d))
       = Ok (results d)
    /\ num_epochs d = (len history / num_solutions d)%Z.
Proof.
  intros Hfind Hlist Hf Hafter Hread.
  unfold read in Hread. rewrite Hfind in Hread. cbn [bind] in Hread.
  rewrite Hlist in Hread. cbn [bind] in Hread.
  bind_inv Hread as bound Hscan.
  rewrite scan_entries_app in Hscan.
  bind_inv Hscan as bound0 Hbefore.
  cbn [scan_entries] in Hscan. rewrite Hf in Hscan.
  bind_inv Hscan as field Hfield.
  bind_inv Hscan as n Hint.
  rewrite (scan_entries_none dir after _ Hafter) in Hscan.
  injection Hscan as <-.
  bind_inv Hread as info Hinfo.
  bind_inv Hread as history Hh.
  bind_inv Hread as history_scaled Hhs.
  bind_inv Hread as res Hres.
  bind_inv Hread as res_scaled Hress.
  bind_inv Hread as epochs Hdiv.
  injection Hread as <-. simpl.
  exists field, history. unfold floordiv in Hdiv.
  destruct (Z.eqb n 0); [discriminate Hdiv|]. injection Hdiv as <-.
  now repeat split.
Qed.

(** X11. A directory without a history file cannot be read: the reader
    raises, and when the metadata snapshot is there it raises
    [UnboundLocalError], the loop having bound no history path. *)
Theorem read_without_history fs path dir entries :
  find_access_path fs path = Ok dir ->
  listdir fs dir = Ok entries ->
  filter (search match_history) entries = [] ->
  raises (read fs path)
  /\ forall info,
       load_pickle fs (join dir "access_info.pickle") = Ok info ->
       read fs path = Raise UnboundLocalError.
Proof.
  intros Hfind Hlist Hnone. read_listed Hfind Hlist.
  rewrite (scan_entries_none dir entries None Hnone). cbn [bind]. split.
  - destruct (load_pickle fs _) as [info|e]; simpl;
      [now exists UnboundLocalError|now exists e].
  - now intros info ->.
Qed.

(** X12. A history file named for a population of zero,
    [opt_history_0.csv], makes the reader raise [ZeroDivisionError], after
    it has loaded the snapshot and both tables. *)
Theorem read_population_zero fs path dir entries info table table_scaled :
  find_access_path fs path = Ok dir ->
  separator_free dir = true ->
  listdir fs dir = Ok entries ->
  filter (search match_history) entries = ["opt_history_0.csv"] ->
  load_pickle fs (join dir "access_info.pickle") = Ok info ->
  loadtxt fs (join dir "opt_history_0.csv")
  = Ok (Arr2 (2 * List.length (index (info_parameters info)) + 2) table) ->
  loadtxt fs (join dir "opt_history_0_scaled.csv")
  = Ok (Arr2 (2 * List.length (index (info_parameters info)) + 2)
          table_scaled) ->
  read fs path = Raise ZeroDivisionError.
Proof.
  intros Hfind Hfree Hlist Hfilter Hinfo Hh Hhs. read_listed Hfind Hlist.
  pose proof (scaled_path_history dir 0 Hfree ltac:(lia)) as Hscaled.
  change (persistence.history_name 0) with "opt_history_0.csv" in Hscaled.
  change (persistence.history_scaled_name 0)
    with "opt_history_0_scaled.csv" in Hscaled.
  rewrite (scan_entries_single dir entries None "opt_history_0.csv" "0" 0
             Hfilter
             (population_field_history dir 0 Hfree ltac:(lia))
             eq_refl); cbn [bind].
  rewrite Hinfo; cbn [bind]. rewrite Hscaled, Hh, Hhs; cbn [bind].
  assert (Hcols : List.length (results_columns (info_parameters info))
                  = (2 * List.length (index (info_parameters info)) + 2)%nat).
  { unfold results_columns. rewrite !length_app, length_map. simpl. lia. }
  unfold DataFrame_new. rewrite Hcols, Nat.eqb_refl; cbn [bind].
  reflexivity.
Qed.

(** X13. Given the parent directory, the reader returns exactly what it
    returns for the directory it discovers there. *)
Theorem read_parent_is_read_child fs parent entries name :
  startswith parent "access_info_" = false ->
  listdir fs parent = Ok entries ->
  find (fun f => startswith f "access_info_") entries = Some name ->
  (startswith (join parent name) "access_info_" = true
   \/ exists entries',
        listdir fs (join parent name) = Ok entries'
        /\ find (fun f => startswith f "access_info_") entries' = None) ->
  read fs parent = read fs (join parent name).
Proof.
  intros Hparent Hlist Hfind Hchild.
  assert (H1 : find_access_path fs parent = Ok (join parent name)).
  { unfold find_access_path. now rewrite Hparent, Hlist; simpl; rewrite Hfind. }
  assert (H2 : find_access_path fs (join parent name)
               = Ok (join parent name)).
  { unfold find_access_path.
    destruct Hchild as [->|(entries' & Hl' & Hnone)]; [reflexivity|].
    destruct (startswith (join parent name) "access_info_"); [reflexivity|].
    now rewrite Hl'; simpl; rewrite Hnone. }
  unfold read. now rewrite H1, H2.
Qed.

(** X14. For a history file [opt_history_<n>.csv] in a directory whose
    path holds neither separator, the loop takes [n] as the population
    size and looks for the scaled table beside it, under the name
    [opt_history_<n>_scaled.csv]. *)
Theorem scan_entries_names dir entries (n : Z) :
  separator_free dir = true -> (0 <= n)%Z ->
  filter (search match_history) entries
  = ["opt_history_" ++ str_int n ++ ".csv"] ->
  scan_entries dir entries None
  = Ok (Some (join dir ("opt_history_" ++ str_int n ++ ".csv"),
              join dir ("opt_history_" ++ str_int n ++ "_scaled.csv"),
              n)).
Proof.
  intros Hfree Hn Hfilter.
  pose proof (scaled_path_history dir n Hfree Hn) as Hscaled.
  pose proof (population_field_history dir n Hfree Hn) as Hfield.
  unfold persistence.history_name, persistence.history_scaled_name
    in Hscaled, Hfield.
  rewrite (scan_entries_single dir entries None _ (str_int n) n Hfilter
             Hfield (py_int_str_int n Hn)).
  now rewrite Hscaled.
Qed.

End ReaderEdges.

Section ReaderEdgeWitnesses.

Import Re base utilities spec examples layouts.

Lemma read_uses_last_history_witness :
  read edge_fs "edge/many"
  = Ok (view 4 example_info example_table example_table_scaled)
  /\ exists field history,
       population_field (join "edge/many" "opt_history_4.csv") = Ok field
       /\ py_int field = Ok 4%Z
       /\ loadtxt edge_fs (join "edge/many" "opt_history_4.csv") = Ok history
       /\ DataFrame_new history (results_columns example_parameters)
          = Ok {| columns := results_columns example_parameters;
                  rows := example_table |}
       /\ 1%Z = (len history / 4)%Z.
Proof.
  split; [reflexivity|].
  exact (read_uses_last_history edge_fs "edge/many" "edge/many"
           ["opt_history_2.csv"; "access_info.pickle"] "opt_history_4.csv"
           ["opt_history_2_scaled.csv"; "opt_history_4_scaled.csv"]
           (view 4 example_info example_table example_table_scaled)
           eq_refl eq_refl eq_refl eq_refl eq_refl).
Defined.

Lemma read_without_history_witness :
  raises (read edge_fs "edge/none")
  /\ read edge_fs "edge/none" = Raise UnboundLocalError.
Proof.
  destruct (read_without_history edge_fs "edge/none" "edge/none"
              ["access_info.pickle"] eq_refl eq_refl eq_refl)
    as [Hraises Hunbound].
  split; [exact Hraises|exact (Hunbound example_info eq_refl)].
Defined.

Lemma read_population_zero_witness :
  read edge_fs "edge/zero" = Raise ZeroDivisionError.
Proof.
  exact (read_population_zero edge_fs "edge/zero" "edge/zero"
           ["access_info.pickle"; "opt_history_0.csv";
            "opt_history_0_scaled.csv"]
           example_info example_table example_table_scaled
           eq_refl eq_refl eq_refl eq_refl eq_refl eq_refl eq_refl).
Defined.

Lemma read_parent_is_read_child_witness :
  read example_fs "access_data"
  = read example_fs (join "access_data" "access_info_000042")
  /\ read edge_fs "edge" = read edge_fs (join "edge" "access_info_none").
Proof.
  split.
  - apply (read_parent_is_read_child example_fs "access_data"
             ["access_seed123"; "access_info_000042"] "access_info_000042"
             eq_refl eq_refl eq_refl).
    right. eexists. split; reflexivity.
  - apply (read_parent_is_read_child edge_fs "edge"
             ["access_info_none"; "many"] "access_info_none"
             eq_refl eq_refl eq_refl).
    right. eexists. split; reflexivity.
Defined.

Lemma scan_entries_names_witness :
  scan_entries "edge/many"
    ["access_info.pickle"; "opt_history_4.csv"; "opt_history_4_scaled.csv"]
    None
  = Ok (Some ("edge/many/opt_history_4.csv",
              "edge/many/opt_history_4_scaled.csv", 4%Z)).
Proof.
  exact (scan_entries_names "edge/many"
           ["access_info.pickle"; "opt_history_4.csv";
            "opt_history_4_scaled.csv"] 4 eq_refl ltac:(lia) eq_refl).
Defined.

End ReaderEdgeWitnesses.

(* ===================================================================== *)
(** * Simulation: running for a time, running up to a time                *)
(* ===================================================================== *)

Section SteppingFacts.

Import base stepping.
Context {E : Type} `{Liggghts E} `{FloatStr} `{FloatRem}.

Lemma set_step_size_cases (self : Simulation E) (x : float) :
  (F64.ltb F64.zero x = true /\ F64.ltb x F64.one = true
   /\ set_step_size self x
      = ({| simulation :=
              command (simulation self) ("timestep " ++ float_str x);
            filename := filename self;
            parameters := parameters self;
            _step_size := x;
            _verbose := _verbose self |}, Ok tt))
  \/ (F64.ltb F64.zero x && F64.ltb x F64.one = false
      /\ set_step_size self x = (self, Raise ValueError)).
Proof.
  unfold set_step_size.
  destruct (F64.ltb F64.zero x); destruct (F64.ltb x F64.one); simpl;
    try (right; split; reflexivity).
  left. now repeat split.
Qed.

(** X15. When [step_time] returns, the instance is as before but for its
    engine, which has been sent three commands: the new step size, the
    run, the old step size again.  It returns only on an instance whose
    own step size lies strictly between 0 and 1. *)
Theorem step_time_returns (self self' : Simulation E) (time : float) :
  step_time time self = (self', Returns tt) ->
  F64.ltb F64.zero (step_size self) = true
  /\ F64.ltb (step_size self) F64.one = true
  /\ exists new_dt steps,
       F64.ltb F64.zero new_dt = true
       /\ F64.ltb new_dt F64.one = true
       /\ truediv time new_dt = Returns steps
       /\ self'
          = with_engine self
              (command
                 (command
                    (command (simulation self)
                       ("timestep " ++ float_str new_dt))
                    ("run " ++ float_str steps ++ " post no"))
                 ("timestep " ++ float_str (step_size self))).
Proof.
  unfold step_time, seq, get, eval, call, run. intros Hrun.
  destruct (truediv time (step_size self)) as [quotient|e];
    [|discriminate Hrun].
  destruct (int_of_float quotient) as [whole|e]; [|discriminate Hrun].
  destruct (float_of_int (whole + 1)) as [divisor|e]; [|discriminate Hrun].
  destruct (truediv time divisor) as [new_dt|e]; [|discriminate Hrun].
  destruct (truediv time new_dt) as [steps|e] eqn:Hsteps;
    [|discriminate Hrun].
  destruct (set_step_size_cases self new_dt)
    as [(Hlo & Hhi & Hset)|(_ & Hset)]; rewrite Hset in Hrun; simpl in Hrun;
    [|discriminate Hrun].
  match type of Hrun with
  | context [set_step_size ?s ?x] =>
      destruct (set_step_size_cases s x)
        as [(Hlo' & Hhi' & Hset')|(_ & Hset')];
      rewrite Hset' in Hrun; simpl in Hrun; [|discriminate Hrun]
  end.
  injection Hrun as <-.
  split; [exact Hlo'|]. split; [exact Hhi'|].
  exists new_dt, steps. now repeat split.
Qed.

(** X16. When [step_time] raises, either nothing has happened to the
    instance, or its own step size was not strictly between 0 and 1: then
    the run has been made with the new step size and the instance is left
    with it, the old one being refused with [ValueError]. *)
Theorem step_time_raises (self self' : Simulation E) (time : float)
    (e : raised) :
  step_time time self = (self', Throws e) ->
  self' = self
  \/ (e = Builtin ValueError
      /\ F64.ltb F64.zero (step_size self)
         && F64.ltb (step_size self) F64.one = false
      /\ exists new_dt steps,
           F64.ltb F64.zero new_dt = true
           /\ F64.ltb new_dt F64.one = true
           /\ truediv time new_dt = Returns steps
           /\ step_size self' = new_dt
           /\ parameters self' = parameters self
           /\ simulation self'
              = command
                  (command (simulation self)
                     ("timestep " ++ float_str new_dt))
                  ("run " ++ float_str steps ++ " post no")).
Proof.
  unfold step_time, seq, get, eval, call, run. intros Hrun.
  destruct (truediv time (step_size self)) as [quotient|e0];
    [|injection Hrun as <- _; now left].
  destruct (int_of_float quotient) as [whole|e0];
    [|injection Hrun as <- _; now left].
  destruct (float_of_int (whole + 1)) as [divisor|e0];
    [|injection Hrun as <- _; now left].
  destruct (truediv time divisor) as [new_dt|e0];
    [|injection Hrun as <- _; now left].
  destruct (truediv time new_dt) as [steps|e0] eqn:Hsteps;
    [|injection Hrun as <- _; now left].
  destruct (set_step_size_cases self new_dt)
    as [(Hlo & Hhi & Hset)|(_ & Hset)]; rewrite Hset in Hrun; simpl in Hrun;
    [|injection Hrun as <- _; now left].
  match type of Hrun with
  | context [set_step_size ?s ?x] =>
      destruct (set_step_size_cases s x)
        as [(Hlo' & Hhi' & Hset')|(Hout & Hset')];
      rewrite Hset' in Hrun; simpl in Hrun; [discriminate Hrun|]
  end.
  injection Hrun as <- <-. right.
  split; [reflexivity|]. split; [exact Hout|].
  exists new_dt, steps. now repeat split.
Qed.

(** X17. A time that is zero, infinite or not a number is never run:
    [step_time] raises and the instance is as it was, no command having
    been sent.  For a zero time the exception is [ZeroDivisionError],
    unless the step size is not a number. *)
Theorem step_time_degenerate (self : Simulation E) (time : float) :
  (forall s m e, time <> S754_finite s m e) ->
  exists e,
    step_time time self = (self, Throws e)
    /\ (F64.nonzero time = false -> F64.is_nan (step_size self) = false ->
        e = Builtin ZeroDivisionError).
Proof.
  intros Hdeg.
  unfold step_time, seq, get, eval, call, run, step_size.
  destruct time as [s|s| |s m e]; [| | |now destruct (Hdeg s m e)];
    destruct (_step_size self) as [s'|s'| |s' m' e']; cbn;
    eexists; (split; [reflexivity|]); intros; try reflexivity;
    discriminate.
Qed.

(** X18. [step_to_time] never returns and never reaches the engine: it
    raises [ValueError] for a time before the current one, otherwise
    [ZeroDivisionError] when the step size is zero, otherwise [NameError],
    and the instance is as it was. *)
Theorem step_to_time_never_returns (self : Simulation E) (time' : float) :
  exists e,
    step_to_time time' self = (self, Throws e)
    /\ (e = Builtin ValueError <-> F64.ltb time' (time self) = true)
    /\ (e = Builtin ZeroDivisionError
        <-> F64.ltb time' (time self) = false
            /\ F64.nonzero (step_size self) = false)
    /\ (e = NameError
        <-> F64.ltb time' (time self) = false
            /\ F64.nonzero (step_size self) = true).
Proof.
  unfold step_to_time, seq, get, eval, throw, mod_, truediv.
  destruct (F64.ltb time' (time self)).
  - exists (Builtin ValueError). split; [reflexivity|].
    split; [now split|]. split; split; try discriminate; now intros [? _].
  - destruct (F64.nonzero (step_size self)).
    + exists NameError. split; [reflexivity|].
      split; [split; discriminate|].
      split; split; try discriminate; try (now intros [_ ?]). now split.
    + exists (Builtin ZeroDivisionError). split; [reflexivity|].
      split; [split; discriminate|].
      split; split; try discriminate; try (now intros [_ ?]). now split.
Qed.

End SteppingFacts.

(* ===================================================================== *)
(** * Simulation: loading a restart file                                  *)
(* ===================================================================== *)

Section RestartFacts.

Import Re base utilities stepping.
Context {E : Type} `{Liggghts E} `{FloatStr}.

Lemma before_first_empty (sep s : string) :
  String.eqb (before_first sep s) ""
  = String.eqb s "" || startswith s sep.
Proof.
  unfold startswith. destruct s as [|c s]; simpl.
  - now destruct (strip_prefix sep "").
  - now destruct (strip_prefix sep (String c s)).
Qed.

(** X19. The script [load] writes has the lines of the script it read,
    one for one, except that every line starting with [read_restart]
    (at its first column), and every empty one, is the line
    [read_restart <filename>]. *)
Theorem restart_lines_spec (filename : string) (lines : list string) :
  List.length (restart_lines filename lines) = List.length lines
  /\ forall i line,
       nth_error lines i = Some line ->
       nth_error (restart_lines filename lines) i
       = Some (if String.eqb line "" || startswith line "read_restart"
               then "read_restart " ++ filename ++ newline
               else line).
Proof.
  unfold restart_lines. split; [apply length_map|].
  intros i line Hline.
  rewrite nth_error_map, Hline; simpl.
  now rewrite before_first_empty.
Qed.

(** X20. [load] raises [OSError] and changes nothing when the script of
    the instance cannot be opened.  When it can, [load] returns; the
    files are then as before, except that no file has the temporary name;
    the engine is a fresh one that was given the temporary script and
    nothing else; the table and the step size recorded on the instance
    are as they were. *)
Theorem load_effect (fs : files) (draw : float) (filename : string)
    (self : Simulation E) :
  (fs (base.filename self) = None ->
   load fs draw filename self = (fs, self, Throws (Builtin OSError)))
  /\ forall script number,
       fs (base.filename self) = Some script ->
       int_of_float (F64.mul draw c1000000) = Returns number ->
       let temporary_fname := "temp_" ++ str_int number ++ ".restart" in
       exists fs' self',
         load fs draw filename self = (fs', self', Returns tt)
         /\ fs' temporary_fname = None
         /\ (forall p, p <> temporary_fname -> fs' p = fs p)
         /\ simulation self'
            = file (liggghts_new
                      (if _verbose self then []
                       else ["-screen"; "/dev/null"]))
                temporary_fname
         /\ base.parameters self' = base.parameters self
         /\ step_size self' = step_size self
         /\ base.filename self' = base.filename self
         /\ _verbose self' = _verbose self.
Proof.
  split.
  - unfold load. now intros ->.
  - intros script number Hscript Hnumber temporary_fname.
    unfold load. rewrite Hscript, Hnumber. fold temporary_fname.
    eexists. eexists. split; [reflexivity|].
    split; [unfold remove, write; now rewrite String.eqb_refl|].
    split.
    + intros p Hp. unfold remove, write.
      now destruct (String.eqb_spec p temporary_fname).
    + simpl. now destruct (_verbose self).
Qed.

End RestartFacts.

Section SteppingWitnesses.

Import base stepping examples stepping_examples.

Local Abbreviation step_time' :=
  (@step_time _ recording_engine example_float_str).

Lemma step_time_returns_witness :
  exists self',
    step_time' F64.one fine_simulation = (self', Returns tt)
    /\ simulation self'
       = ["timestep 0.75"; "run 2.0 post no"; "timestep 0.5"]
    /\ F64.ltb F64.zero (step_size fine_simulation) = true.
Proof.
  eexists. split; [reflexivity|]. split; [reflexivity|].
  exact (proj1 (@step_time_returns _ recording_engine example_float_str
                  fine_simulation _ F64.one eq_refl)).
Defined.

Lemma step_time_raises_witness :
  exists self',
    step_time' one_and_a_half coarse_simulation
    = (self', Throws (Builtin ValueError))
    /\ simulation self' = ["run 2.0 post no"; "timestep 0.75"]
    /\ (self' = coarse_simulation
        \/ Builtin ValueError = Builtin ValueError
           /\ F64.ltb F64.zero (step_size coarse_simulation)
              && F64.ltb (step_size coarse_simulation) F64.one = false
           /\ exists new_dt steps,
                F64.ltb F64.zero new_dt = true
                /\ F64.ltb new_dt F64.one = true
                /\ truediv one_and_a_half new_dt = Returns steps
                /\ step_size self' = new_dt
                /\ base.parameters self' = base.parameters coarse_simulation
                /\ simulation self'
                   = @command _ recording_engine
                       (@command _ recording_engine
                          (simulation coarse_simulation)
                          ("timestep " ++ example_float_str new_dt))
                       ("run " ++ example_float_str steps ++ " post no")).
Proof.
  eexists. split; [reflexivity|]. split; [reflexivity|].
  exact (@step_time_raises _ recording_engine example_float_str
           coarse_simulation _ one_and_a_half (Builtin ValueError) eq_refl).
Defined.

Lemma step_time_degenerate_witness :
  exists e,
    step_time' F64.zero fine_simulation = (fine_simulation, Throws e)
    /\ (F64.nonzero F64.zero = false ->
        F64.is_nan (step_size fine_simulation) = false ->
        e = Builtin ZeroDivisionError).
Proof.
  apply (@step_time_degenerate _ recording_engine example_float_str
           fine_simulation F64.zero).
  intros s m e; discriminate.
Defined.

Lemma restart_lines_spec_witness :
  nth_error (restart_lines "2.save" example_script) 1
  = Some ("read_restart 2.save" ++ newline)
  /\ nth_error (restart_lines "2.save" example_script) 2
     = Some ("  read_restart indented.data" ++ newline).
Proof.
  split.
  - exact (proj2 (restart_lines_spec "2.save" example_script) 1%nat
             ("read_restart restart.data" ++ newline) eq_refl).
  - exact (proj2 (restart_lines_spec "2.save" example_script) 2%nat
             ("  read_restart indented.data" ++ newline) eq_refl).
Defined.

Lemma load_effect_witness :
  exists fs' self',
    @load _ recording_engine example_files spec.half "2.save" fine_simulation
    = (fs', self', Returns tt)
    /\ fs' "temp_500000.restart" = None
    /\ (forall p, p <> "temp_500000.restart" -> fs' p = example_files p)
    /\ simulation self' = ["file temp_500000.restart"]
    /\ base.parameters self' = example_parameters
    /\ step_size self' = three_quarters
    /\ base.filename self' = "run.sim"
    /\ _verbose self' = true.
Proof.
  exact (proj2 (@load_effect _ recording_engine example_files spec.half
                  "2.save" fine_simulation)
           example_script 500000%Z eq_refl eq_refl).
Defined.

End SteppingWitnesses.
